(** * coursera-forum-dl: a shallow embedding of the forum archiver

    The script authenticates against a course, reads the thread count from
    the forum index, fetches every thread id in turn and writes each payload
    to [<path>/<class_name>/forums/<id>.json].

    The embedding follows [coursera-forum-dl.py] function by function.
    Everything the script does to the outside (network, file system,
    logging, process exit) is an action of the monad [M] over a [world];
    what the outside answers is read from an [environment] of oracles that
    may depend on the whole history of the run. *)

From Stdlib Require Import ZArith QArith String Ascii List.
From stdpp Require Import base option list list_numbers strings pretty gmap sets.

Local Set Warnings "-register-all".
Local Open Scope string_scope.
Local Open Scope Z_scope.

(** ** Python values, as [json.loads] returns them *)

Module Py.

(** A Python float: every finite double is a rational; [json.loads] also
    accepts [Infinity], [-Infinity] and [NaN]. *)
Inductive pyfloat :=
  | FFinite (q : Q)
  | FInf (negative : bool)
  | FNaN.

(** Dictionaries decoded from JSON have string keys; they are kept as
    association lists read at the first binding of a key. *)
Inductive value :=
  | PNone
  | PBool (b : bool)
  | PInt (z : Z)
  | PFloat (f : pyfloat)
  | PStr (s : string)
  | PList (l : list value)
  | PDict (d : list (string * value)).

(** Exception classes the script can meet.  [ConnectionError] stands for
    the [requests] connection errors other than [SSLError] (its subclass),
    [SystemExit] carries the status given to [sys.exit]. *)
Inductive exc_class :=
  | HTTPError
  | SSLError
  | ConnectionError
  | ClassNotFound
  | AuthenticationFailed
  | CredentialsError
  | ValueError
  | TypeError
  | KeyError
  | OverflowError
  | OSError
  | SystemExit (code : Z).

Record exn := Exn { exn_class : exc_class; exn_msg : string }.

Inductive result (A : Type) :=
  | Ok (a : A)
  | Raise (e : exn).
Arguments Ok {A} a.
Arguments Raise {A} e.

Global Instance exc_class_eq_dec : EqDecision exc_class.
Proof. solve_decision. Defined.

(** [isinstance(e, cls)] for the flat class list above. *)
Definition is_class (c : exc_class) (e : exn) : bool := bool_decide (exn_class e = c).

(** *** Strings *)

Fixpoint lstrip (s : string) : string :=
  match s with
  | String c s' => if Ascii.is_space c then lstrip s' else s
  | EmptyString => EmptyString
  end.

Definition strip (s : string) : string :=
  String.rev (lstrip (String.rev (lstrip s))).

Definition digit_value (c : ascii) : option Z :=
  let n := Z.of_nat (nat_of_ascii c) in
  if bool_decide (48 ≤ n ≤ 57) then Some (n - 48) else None.

Fixpoint digits_value (acc : Z) (s : string) : option Z :=
  match s with
  | EmptyString => Some acc
  | String c s' =>
      match digit_value c with
      | Some d => digits_value (10 * acc + d) s'
      | None => None
      end
  end.

Definition unsigned_literal (s : string) : option Z :=
  match s with
  | EmptyString => None
  | _ => digits_value 0 s
  end.

(** [int(s)] for a string, base 10: surrounding white space, an optional
    sign, then one or more decimal digits.  This is what every version of
    Python reads from a string of ASCII characters with at most 4300
    digits and no underscore; digit-grouping underscores (Python 3.6 and
    later), decimal digits and white space outside ASCII, and the refusal
    of longer literals (Python 3.11) are not modelled, so statements about
    strings are made for strings of that kind, or for strings that no
    version reads (see [rejected_by_int]). *)
Definition int_of_literal (s : string) : option Z :=
  match strip s with
  | String "-" r => Z.opp <$> unsigned_literal r
  | String "+" r => unsigned_literal r
  | t => unsigned_literal t
  end.

(** [sub in s] for two strings. *)
Definition substring_of (sub s : string) : bool :=
  match String.index 0 sub s with
  | Some _ => true
  | None => false
  end.

Definition is_str (key : string) (v : value) : bool :=
  match v with
  | PStr s => bool_decide (s = key)
  | _ => false
  end.

Fixpoint assoc (key : string) (d : list (string * value)) : option value :=
  match d with
  | [] => None
  | (k, v) :: d' => if bool_decide (k = key) then Some v else assoc key d'
  end.

(** [key in container], for a string [key]. *)
Definition contains (key : string) (container : value) : result bool :=
  match container with
  | PDict d => Ok (bool_decide (is_Some (assoc key d)))
  | PList l => Ok (existsb (is_str key) l)
  | PStr s => Ok (substring_of key s)
  | _ => Raise (Exn TypeError "argument is not iterable")
  end.

(** [container[key]], for a string [key]. *)
Definition getitem (container : value) (key : string) : result value :=
  match container with
  | PDict d =>
      match assoc key d with
      | Some v => Ok v
      | None => Raise (Exn KeyError key)
      end
  | PList _ => Raise (Exn TypeError "list indices must be integers")
  | PStr _ => Raise (Exn TypeError "string indices must be integers")
  | _ => Raise (Exn TypeError "object is not subscriptable")
  end.

(** [int(v)]: floats truncate toward zero. *)
Definition int (v : value) : result Z :=
  match v with
  | PInt z => Ok z
  | PBool b => Ok (if b then 1 else 0)
  | PFloat (FFinite q) => Ok (Z.quot (Qnum q) (Zpos (Qden q)))
  | PFloat (FInf _) => Raise (Exn OverflowError "cannot convert float infinity to integer")
  | PFloat FNaN => Raise (Exn ValueError "cannot convert float NaN to integer")
  | PStr s =>
      match int_of_literal s with
      | Some z => Ok z
      | None =>
          Raise (Exn ValueError ("invalid literal for int() with base 10: '" +:+ s +:+ "'"))
      end
  | PNone | PList _ | PDict _ =>
      Raise (Exn TypeError "int() argument must be a string or a number")
  end.

(** Truth value of an integer and of an optional string ([None] and the
    empty string are false). *)
Definition truthy_int (z : Z) : bool := negb (z =? 0).

Definition truthy_str (o : option string) : bool :=
  match o with
  | Some s => negb (bool_decide (s = ""))
  | None => false
  end.

(** [range(lo, hi)]. *)
Definition range (lo hi : Z) : list Z := seqZ lo (hi - lo).

(** [str(i)] for an integer. *)
Definition str (i : Z) : string := pretty i.

(** [sep.join(l)]. *)
Fixpoint join (sep : string) (l : list string) : string :=
  match l with
  | [] => ""
  | [x] => x
  | x :: l' => x +:+ sep +:+ join sep l'
  end.

(** *** [os.path.join] on a POSIX system *)

Fixpoint ends_with_sep (s : string) : bool :=
  match s with
  | EmptyString => false
  | String c EmptyString => bool_decide (c = "/"%char)
  | String _ s' => ends_with_sep s'
  end.

Definition path_join2 (path b : string) : string :=
  if String.prefix "/" b then b
  else if bool_decide (path = "") || ends_with_sep path then path +:+ b
  else path +:+ "/" +:+ b.

Definition path_join (a : string) (p : list string) : string :=
  fold_left path_join2 p a.

(** Every proper ancestor directory of a path, nearest last. *)
Fixpoint ancestors_go (pre s : string) : list string :=
  match s with
  | EmptyString => []
  | String c s' =>
      (if bool_decide (c = "/"%char) && negb (bool_decide (pre = "")) then [pre] else [])
        ++ ancestors_go (pre +:+ String c EmptyString) s'
  end.

Definition ancestors (p : string) : list string := ancestors_go "" p.

End Py.

Import Py.

(** ** The outside world *)

(** What the run does to the outside, in the order it happens. *)
Inductive event :=
  | EAuth (class_name : string)
  | EGet (url : string)
  | ECredentials
  | EMkdir (path : string)
  | ERmtree (path : string)
  | EOpen (path : string)
  | EWrite (path content : string)
  | ELog (level msg : string)
  | EPrint (msg : string)
  | ESslHint (e : exn).

Record world := World {
  trace : list event;
  files : gmap string string;
  dirs : gset string
}.

(** The value of an option that takes an optional argument ([--netrc]). *)
Inductive netrc_opt :=
  | NetrcOff
  | NetrcDefault
  | NetrcPath (p : string).

(** The namespace [argparse] hands to the rest of [parse_args]. *)
Record namespace := Namespace {
  class_names : list string;
  username : option string;
  password : option string;
  path : string;
  cookies_file : option string;
  netrc : netrc_opt;
  use_keyring : bool;
  clear_cache : bool;
  skip_download : bool;
  debug : bool;
  version : bool;
  local_page : option string
}.

Definition set_path (p : string) (a : namespace) : namespace :=
  Namespace (class_names a) (username a) (password a) p (cookies_file a) (netrc a)
    (use_keyring a) (clear_cache a) (skip_download a) (debug a) (version a) (local_page a).

Definition set_use_keyring (b : bool) (a : namespace) : namespace :=
  Namespace (class_names a) (username a) (password a) (path a) (cookies_file a) (netrc a)
    b (clear_cache a) (skip_download a) (debug a) (version a) (local_page a).

Definition set_credentials (u p : string) (a : namespace) : namespace :=
  Namespace (class_names a) (Some u) (Some p) (path a) (cookies_file a) (netrc a)
    (use_keyring a) (clear_cache a) (skip_download a) (debug a) (version a) (local_page a).

(** The imported names the script relies on.  Constants and pure helpers
    are taken as they are; a call that can fail answers from the history of
    the run so far, so a server or a disk may answer differently each time. *)
Record environment := Environment {
  (** [CLASS_URL.format(class_name=...)] of [coursera.define]. *)
  CLASS_URL : string → string;
  PATH_CACHE : string;
  package_version : string;
  (** whether [coursera.credentials.keyring] is a module rather than [None] *)
  keyring : bool;
  decode_input : string → string;
  normalize_path : string → string;
  is_debug_run : list event → bool;
  credentials_reply :
    list event → option string → option string → netrc_opt → bool → result (string * string);
  (** [None]: the session now holds cookies for the class. *)
  cookies_reply :
    list event → string → option string → option string → option string → option exn;
  page_reply : list event → string → result string;
  json_loads : string → result value;
  mkdir_fault : list event → string → option exn;
  rmtree_fault : list event → string → option exn;
  open_fault : list event → string → option exn;
  write_fault : list event → string → string → option exn
}.

(** ** The monad of the script: state and exceptions *)

Definition M (A : Type) : Type := world → result A * world.

Global Instance M_ret : MRet M := λ A a w, (Ok a, w).

Global Instance M_bind : MBind M := λ A B k m w,
  match m w with
  | (Ok a, w') => k a w'
  | (Raise e, w') => (Raise e, w')
  end.

Definition raise {A} (e : exn) : M A := λ w, (Raise e, w).

(** [try: body / except ...:]; [handler e] is the first clause that matches
    [e], if any. *)
Definition try_except {A} (body : M A) (handler : exn → option (M A)) : M A := λ w,
  match body w with
  | (Ok a, w') => (Ok a, w')
  | (Raise e, w') =>
      match handler e with
      | Some h => h w'
      | None => (Raise e, w')
      end
  end.

Definition emit (ev : event) : M unit := λ w,
  (Ok tt, World (trace w ++ [ev]) (files w) (dirs w)).

Definition of_result {A} (r : result A) : M A := λ w, (r, w).

Definition when (b : bool) (m : M unit) : M unit := if b then m else mret tt.

(** [for x in l: body x]. *)
Fixpoint for_each {A} (l : list A) (body : A → M unit) : M unit :=
  match l with
  | [] => mret tt
  | x :: l' => body x ;; for_each l' body
  end.

(** The URLs the run has requested, oldest first. *)
Fixpoint requests (t : list event) : list string :=
  match t with
  | [] => []
  | EGet url :: t' => url :: requests t'
  | _ :: t' => requests t'
  end.

(** Whether the path names a directory or a file of the world. *)
Definition path_exists (p : string) (w : world) : bool :=
  bool_decide (p ∈ dirs w) || bool_decide (is_Some (files w !! p)).

(** The status the process ends with. *)
Definition exit_status {A} (r : result A) : Z :=
  match r with
  | Ok _ => 0
  | Raise (Exn (SystemExit code) _) => code
  | Raise _ => 1
  end.

Section Script.

Variable E : environment.

(** *** Library calls *)

Definition logging (level msg : string) : M unit := emit (ELog level msg).

Definition print (msg : string) : M unit := emit (EPrint msg).

Definition sys_exit {A} (code : Z) : M A := raise (Exn (SystemExit code) "").

Definition os_path_exists (p : string) : M bool := λ w, (Ok (path_exists p w), w).

(** Modelled from the spec: [mkdir_p] of [coursera.utils], which is not
    among the sources; it ensures the directory exists, created
    recursively if absent.  (The mode [main] passes for the cache directory
    has no place in [dirs].) *)
Definition mkdir_p (p : string) : M unit := λ w,
  let w1 := World (trace w ++ [EMkdir p]) (files w) (dirs w) in
  match mkdir_fault E (trace w) p with
  | Some e => (Raise e, w1)
  | None => (Ok tt, World (trace w1) (files w) ({[p]} ∪ list_to_set (ancestors p) ∪ dirs w))
  end.

Definition under (root p : string) : bool :=
  bool_decide (p = root) || String.prefix (root +:+ "/") p.

(** [shutil.rmtree]: the directory goes with everything under it. *)
Definition rmtree (p : string) : M unit := λ w,
  let w1 := World (trace w ++ [ERmtree p]) (files w) (dirs w) in
  match rmtree_fault E (trace w) p with
  | Some e => (Raise e, w1)
  | None =>
      (Ok tt, World (trace w1)
                (filter (λ kv, under p kv.1 = false) (files w))
                (filter (λ d, under p d = false) (dirs w)))
  end.

(** [with open(p, 'w') as f: f.write(content)]: opening truncates the
    file, the content is there once the write has gone through. *)
Definition write_file (p content : string) : M unit := λ w,
  let w1 := World (trace w ++ [EOpen p]) (files w) (dirs w) in
  match open_fault E (trace w) p with
  | Some e => (Raise e, w1)
  | None =>
      let w2 := World (trace w1 ++ [EWrite p content]) (<[p := ""]> (files w)) (dirs w) in
      match write_fault E (trace w1) p content with
      | Some e => (Raise e, w2)
      | None => (Ok tt, World (trace w2) (<[p := content]> (files w)) (dirs w))
      end
  end.

(** [get_page] of [coursera.network]: the body of the reply, or the
    exception of the request.  [EGet] stands for the whole call, with
    whatever [get_page] logs on its own. *)
Definition get_page (url : string) : M string := λ w,
  (page_reply E (trace w) url, World (trace w ++ [EGet url]) (files w) (dirs w)).

(** [get_cookies_for_class] of [coursera.cookies]: it fills the cookie jar
    of the session or raises.  [EAuth] stands for the whole call; the
    cookies it caches under [PATH_CACHE] are not files of the archive and
    are left out of [files]. *)
Definition get_cookies_for_class (class_name : string)
    (cookies_file username password : option string) : M unit := λ w,
  let w1 := World (trace w ++ [EAuth class_name]) (files w) (dirs w) in
  match cookies_reply E (trace w) class_name cookies_file username password with
  | Some e => (Raise e, w1)
  | None => (Ok tt, w1)
  end.

(** [get_credentials] of [coursera.credentials]. *)
Definition get_credentials (username password : option string)
    (netrc : netrc_opt) (use_keyring : bool) : M (string * string) := λ w,
  (credentials_reply E (trace w) username password netrc use_keyring,
   World (trace w ++ [ECredentials]) (files w) (dirs w)).

(** *** [coursera-forum-dl.py] *)

(** The part of [parse_args] after [parser.parse_args]: [ns] is the
    namespace argparse has built from the command line. *)
Definition parse_args (ns : namespace) : M namespace :=
  (* logging.basicConfig only configures the logger *)
  when (version ns) (print (package_version E) ;; sys_exit 0) ;;
  let args := set_path (decode_input E (path ns)) ns in
  args ← (if use_keyring args && truthy_str (password args)
          then logging "warning" "--keyring and --password cannot be specified together" ;;
               mret (set_use_keyring false args)
          else mret args) ;
  args ← (if use_keyring args && negb (keyring E)
          then logging "warning" "The python module `keyring` not found." ;;
               mret (set_use_keyring false args)
          else mret args) ;
  (if truthy_str (cookies_file args)
   then found ← os_path_exists (default "" (cookies_file args)) ;
        when (negb found)
          (logging "error" ("Cookies file not found: " +:+ default "" (cookies_file args)) ;;
           sys_exit 1)
   else mret tt) ;;
  if negb (truthy_str (cookies_file args))
  then try_except
         ('(u, p) ← get_credentials (username args) (password args)
                      (netrc args) (use_keyring args) ;
          mret (set_credentials u p args))
         (λ e, if is_class CredentialsError e
               then Some (logging "error" (exn_msg e) ;; sys_exit 1)
               else None)
  else mret args.

Definition get_api_threads_url (class_name : string) : M string :=
  let class_type := "index" in
  let url := CLASS_URL E class_name +:+ "/api/forum/forums/0/threads?page_size=10" in
  logging "debug" ("Using " +:+ class_type +:+ " mode with page: " +:+ url) ;;
  mret url.

Definition get_api_post_url (class_name : string) (index : Z) : M string :=
  let class_type := "index" in
  let url := CLASS_URL E class_name +:+ "/api/forum/threads/" +:+ str index +:+ "?sort=null" in
  logging "debug" ("Using " +:+ class_type +:+ " mode with page: " +:+ url) ;;
  mret url.

Definition thread_file (forums_dir : string) (i : Z) : string :=
  forums_dir +:+ "/" +:+ str i +:+ ".json".

(** One turn of the loop over the thread ids: [None] stands for the
    [continue] of the handler. *)
Definition download_thread (class_name forums_dir : string) (i : Z) : M unit :=
  fetched ← try_except
              (url ← get_api_post_url class_name i ;
               post ← get_page url ;
               mret (Some post))
              (λ e, if is_class HTTPError e then Some (mret None) else None) ;
  match fetched with
  | None => mret tt
  | Some post => write_file (thread_file forums_dir i) post
  end.

Definition forums_dir_of (args : namespace) (class_name : string) : string :=
  path_join (path args) [class_name; "forums"].

Definition download_forums (args : namespace) (class_name : string) : M Z :=
  (* get_session and make_cookie_values only build values in memory *)
  get_cookies_for_class class_name (cookies_file args) (username args) (password args) ;;
  let forums_dir := forums_dir_of args class_name in
  found ← os_path_exists forums_dir ;
  when (negb found) (mkdir_p (normalize_path E forums_dir)) ;;
  url ← get_api_threads_url class_name ;
  text ← get_page url ;
  threads ← of_result (json_loads E text) ;
  present ← of_result (contains "total_threads" threads) ;
  threads_num ← (if present : bool
                 then v ← of_result (getitem threads "total_threads") ;
                      of_result (int v)
                 else mret 0) ;
  for_each (range 1 (threads_num + 1)) (download_thread class_name forums_dir) ;;
  mret 0.

(** [is_debug_run()] of [coursera.utils]. *)
Definition debug_run : M bool := λ w, (Ok (is_debug_run E (trace w)), w).

(** The [except] clauses of [main], in their order. *)
Definition main_handler (completed_classes : list string) (e : exn)
    : option (M (list string)) :=
  if is_class HTTPError e then
    Some (logging "error" ("HTTPError " +:+ exn_msg e) ;; mret completed_classes)
  else if is_class SSLError e then
    Some (logging "error" ("SSLError " +:+ exn_msg e) ;;
          emit (ESslHint e) ;;
          debugging ← debug_run ;
          if debugging : bool then raise e else mret completed_classes)
  else if is_class ClassNotFound e then
    Some (logging "error" ("Could not find class: " +:+ exn_msg e) ;; mret completed_classes)
  else if is_class AuthenticationFailed e then
    Some (logging "error" ("Could not authenticate: " +:+ exn_msg e) ;; mret completed_classes)
  else None.

(** The body of the loop over [args.class_names]; the result is
    [completed_classes] after this turn. *)
Definition download_class_turn (args : namespace) (completed_classes : list string)
    (class_name : string) : M (list string) :=
  try_except
    (logging "info" ("Downloading class: " +:+ class_name) ;;
     r ← download_forums args class_name ;
     if truthy_int r then mret ((completed_classes ++ [class_name])%list)
     else mret completed_classes)
    (main_handler completed_classes).

Fixpoint download_classes (args : namespace) (l : list string)
    (completed_classes : list string) : M (list string) :=
  match l with
  | [] => mret completed_classes
  | class_name :: l' =>
      completed_classes' ← download_class_turn args completed_classes class_name ;
      download_classes args l' completed_classes'
  end.

Definition summary (completed_classes : list string) : string :=
  "Classes which appear completed: " +:+ join " " completed_classes.

Definition main (ns : namespace) : M unit :=
  args ← parse_args ns ;
  logging "info" ("coursera_dl version " +:+ package_version E) ;;
  mkdir_p (PATH_CACHE E) ;;
  when (clear_cache args) (rmtree (PATH_CACHE E)) ;;
  completed_classes ← download_classes args (class_names args) [] ;
  match completed_classes with
  | [] => mret tt
  | _ => logging "info" (summary completed_classes)
  end.

(** *** Program points of [download_forums] and [main]

    The statements below speak of the run up to some line of the source;
    these are those prefixes, and [download_forums_points] shows that
    [download_forums] is their composition. *)

(** [get_page(session, get_api_post_url(class_name, i))], the fetch of
    thread [i]. *)
Definition fetch_post (class_name : string) (i : Z) : M string :=
  url ← get_api_post_url class_name i ;
  get_page url.

(** Authentication, then the archive directory (up to [mkdir_p]). *)
Definition open_archive (args : namespace) (class_name : string) : M string :=
  get_cookies_for_class class_name (cookies_file args) (username args) (password args) ;;
  let forums_dir := forums_dir_of args class_name in
  found ← os_path_exists forums_dir ;
  when (negb found) (mkdir_p (normalize_path E forums_dir)) ;;
  mret forums_dir.

(** Up to the request for the thread index. *)
Definition fetch_index (args : namespace) (class_name : string) : M string :=
  open_archive args class_name ;;
  url ← get_api_threads_url class_name ;
  get_page url.

(** [threads_num] as computed from the decoded index. *)
Definition threads_num_of (threads : value) : result Z :=
  match contains "total_threads" threads with
  | Ok true =>
      match getitem threads "total_threads" with
      | Ok v => int v
      | Raise e => Raise e
      end
  | Ok false => Ok 0
  | Raise e => Raise e
  end.

(** Up to the value of [threads_num]. *)
Definition thread_count (args : namespace) (class_name : string) : M Z :=
  text ← fetch_index args class_name ;
  threads ← of_result (json_loads E text) ;
  of_result (threads_num_of threads).

(** The loop over the thread ids. *)
Definition download_threads (class_name forums_dir : string) (threads_num : Z) : M unit :=
  for_each (range 1 (threads_num + 1)) (download_thread class_name forums_dir).

End Script.

(** The world once [ev] has happened. *)
Definition after (ev : event) (w : world) : world :=
  World (trace w ++ [ev]) (files w) (dirs w).

(** The world in which the turn of [class_name] has been announced. *)
Definition announced (class_name : string) (w : world) : world :=
  after (ELog "info" ("Downloading class: " +:+ class_name)) w.

(** What the clause of [main] that catches [e] logs and prints. *)
Definition failure_report (e : exn) : list event :=
  match exn_class e with
  | HTTPError => [ELog "error" ("HTTPError " +:+ exn_msg e)]
  | SSLError => [ELog "error" ("SSLError " +:+ exn_msg e); ESslHint e]
  | ClassNotFound => [ELog "error" ("Could not find class: " +:+ exn_msg e)]
  | AuthenticationFailed => [ELog "error" ("Could not authenticate: " +:+ exn_msg e)]
  | _ => []
  end.

Definition reported (e : exn) (w : world) : world :=
  World (trace w ++ failure_report e) (files w) (dirs w).

(** The classes [main] has a clause for. *)
Definition course_level : list exc_class :=
  [HTTPError; SSLError; ClassNotFound; AuthenticationFailed].

(** The warnings [parse_args] logs about [--keyring]; the first one
    switches the keyring off, so at most one of them is logged. *)
Definition keyring_warnings (E : environment) (ns : namespace) : list event :=
  if use_keyring ns && truthy_str (password ns)
  then [ELog "warning" "--keyring and --password cannot be specified together"]
  else if use_keyring ns && negb (keyring E)
  then [ELog "warning" "The python module `keyring` not found."]
  else [].

Section Points.

Variable E : environment.
Variables class_name forums_dir : string.

Definition index_url : string :=
  CLASS_URL E class_name +:+ "/api/forum/forums/0/threads?page_size=10".

Definition index_url_logged : event :=
  ELog "debug" ("Using index mode with page: " +:+ index_url).

Definition post_url (i : Z) : string :=
  CLASS_URL E class_name +:+ "/api/forum/threads/" +:+ str i +:+ "?sort=null".

Definition post_url_logged (i : Z) : event :=
  ELog "debug" ("Using index mode with page: " +:+ post_url i).

(** The world once thread [i] has been requested. *)
Definition requested (i : Z) (w : world) : world :=
  after (EGet (post_url i)) (after (post_url_logged i) w).

(** The turn of thread [i], started in [w], fails with [e] in world [w']
    for a reason other than an HTTP error of the fetch: the fetch raises
    something else, or the file cannot be opened, or cannot be written. *)
Inductive thread_failure (i : Z) (w : world) (e : exn) : world → Prop :=
  | fetch_failed :
      (fetch_post E class_name i w).1 = Raise e →
      exn_class e ≠ HTTPError →
      thread_failure i w e (requested i w)
  | open_failed post :
      (fetch_post E class_name i w).1 = Ok post →
      open_fault E (trace (requested i w)) (thread_file forums_dir i) = Some e →
      thread_failure i w e (after (EOpen (thread_file forums_dir i)) (requested i w))
  | write_failed post :
      (fetch_post E class_name i w).1 = Ok post →
      open_fault E (trace (requested i w)) (thread_file forums_dir i) = None →
      write_fault E (trace (requested i w) ++ [EOpen (thread_file forums_dir i)])
        (thread_file forums_dir i) post = Some e →
      thread_failure i w e
        (World (trace (requested i w)
                  ++ [EOpen (thread_file forums_dir i); EWrite (thread_file forums_dir i) post])
           (<[thread_file forums_dir i := ""]> (files w)) (dirs w)).

End Points.

(** ** A server to run the script against

    Course [demo-101] has three threads; thread 2 answers with an HTTP
    error.  Course [empty-1] has an index without [total_threads], course
    [broken-1] one whose [total_threads] is not a number, course [gone-1]
    does not exist, course [tls-1] fails the TLS handshake and course
    [flaky-1] drops the connection at its first thread.  Nothing can be
    written under [ro]. *)
Module Demo.

Definition quoted (s : string) : string :=
  String "034"%char s +:+ String "034"%char EmptyString.

Definition base (class_name : string) : string :=
  "https://class.coursera.org/" +:+ class_name.

Definition index_url (class_name : string) : string :=
  base class_name +:+ "/api/forum/forums/0/threads?page_size=10".

Definition post_url (class_name : string) (i : Z) : string :=
  base class_name +:+ "/api/forum/threads/" +:+ str i +:+ "?sort=null".

Definition index_three : string := "{" +:+ quoted "total_threads" +:+ ":3}".
Definition index_none : string := "{" +:+ quoted "threads" +:+ ":[]}".
Definition index_bad : string :=
  "{" +:+ quoted "total_threads" +:+ ":" +:+ quoted "many" +:+ "}".
Definition post_body (i : Z) : string := "{" +:+ quoted "id" +:+ ":" +:+ str i +:+ "}".

Definition pages : list (string * result string) :=
  [ (index_url "demo-101", Ok index_three);
    (post_url "demo-101" 1, Ok (post_body 1));
    (post_url "demo-101" 2, Raise (Exn HTTPError "404 Client Error"));
    (post_url "demo-101" 3, Ok (post_body 3));
    (index_url "empty-1", Ok index_none);
    (index_url "broken-1", Ok index_bad);
    (index_url "down-1", Raise (Exn HTTPError "500 Server Error"));
  (index_url "flaky-1", Ok index_three);
  (post_url "flaky-1" 1, Raise (Exn ConnectionError "Connection aborted")) ].

Fixpoint lookup_page (url : string) (l : list (string * result string)) : result string :=
  match l with
  | [] => Raise (Exn HTTPError "404 Client Error")
  | (u, r) :: l' => if bool_decide (u = url) then r else lookup_page url l'
  end.

Definition loads (text : string) : result value :=
  if bool_decide (text = index_three) then Ok (PDict [("total_threads", PInt 3)])
  else if bool_decide (text = index_none) then Ok (PDict [("threads", PList [])])
  else if bool_decide (text = index_bad) then Ok (PDict [("total_threads", PStr "many")])
  else Raise (Exn ValueError "No JSON object could be decoded").

Definition cookies (class_name : string) : option exn :=
  if bool_decide (class_name = "gone-1") then Some (Exn ClassNotFound "gone-1")
  else if bool_decide (class_name = "locked-1") then Some (Exn AuthenticationFailed "locked-1")
  else if bool_decide (class_name = "tls-1") then Some (Exn SSLError "certificate verify failed")
  else None.

Definition env (debugging : bool) : environment := {|
  CLASS_URL := base;
  PATH_CACHE := "/tmp/coursera_dl_cache";
  package_version := "0.1";
  keyring := false;
  decode_input := λ s, s;
  normalize_path := λ s, s;
  is_debug_run := λ _, debugging;
  credentials_reply := λ _ u p _ _,
    match u, p with
    | Some u, Some p => Ok (u, p)
    | _, _ => Raise (Exn CredentialsError "Please provide a username")
    end;
  cookies_reply := λ _ class_name _ _ _, cookies class_name;
  page_reply := λ _ url, lookup_page url pages;
  json_loads := loads;
  mkdir_fault := λ _ _, None;
  rmtree_fault := λ _ _, None;
  open_fault := λ _ p, if bool_decide (p = "ro/demo-101/forums/1.json")
                       then Some (Exn OSError "Read-only file system") else None;
  write_fault := λ _ _ _, None
|}.

Definition ns (classes : list string) : namespace := {|
  class_names := classes;
  username := Some "user";
  password := Some "secret";
  path := "out";
  cookies_file := None;
  netrc := NetrcOff;
  use_keyring := false;
  clear_cache := false;
  skip_download := false;
  debug := false;
  version := false;
  local_page := None
|}.

Definition w0 : world := World [] ∅ ∅.

End Demo.

(** ** A second server, for the edges

    Course [neg-1] reports a negative thread count, the index of course
    [list-1] is a JSON array, that of course [html-1] is no JSON at all.
    No directory can be made under [full], and the cache directory is
    [cache]. *)
Module Edge.

Definition index_negative : string := "{" +:+ Demo.quoted "total_threads" +:+ ":-3}".
Definition index_array : string := "[" +:+ Demo.quoted "total_threads" +:+ "]".
Definition index_html : string := "<html><body>Sign in</body></html>".

Definition pages : list (string * result string) :=
  [ (Demo.index_url "neg-1", Ok index_negative);
    (Demo.index_url "list-1", Ok index_array);
    (Demo.index_url "html-1", Ok index_html) ].

Definition loads (text : string) : result value :=
  if bool_decide (text = index_negative) then Ok (PDict [("total_threads", PInt (-3))])
  else if bool_decide (text = index_array) then Ok (PList [PStr "total_threads"])
  else Raise (Exn ValueError "No JSON object could be decoded").

Definition env (cache : string) : environment := {|
  CLASS_URL := Demo.base;
  PATH_CACHE := cache;
  package_version := "0.1";
  keyring := true;
  decode_input := λ s, s;
  normalize_path := λ s, s;
  is_debug_run := λ _, false;
  credentials_reply := λ _ u p _ _,
    match u, p with
    | Some u, Some p => Ok (u, p)
    | _, _ => Raise (Exn CredentialsError "Please provide a username")
    end;
  cookies_reply := λ _ _ _ _ _, None;
  page_reply := λ _ url, Demo.lookup_page url pages;
  json_loads := loads;
  mkdir_fault := λ _ p, if String.prefix "full" p
                        then Some (Exn OSError "No space left on device") else None;
  rmtree_fault := λ _ _, None;
  open_fault := λ _ _, None;
  write_fault := λ _ _ _, None
|}.

End Edge.

(** ** Values that [int] rejects in every version of Python *)




(** ** Further projections and program points *)

(** The classes whose cookies have been asked for, oldest first. *)
Fixpoint auths (t : list event) : list string :=
  match t with
  | [] => []
  | EAuth class_name :: t' => class_name :: auths t'
  | _ :: t' => auths t'
  end.

(** The directories [mkdir_p] has been called for, oldest first. *)
Fixpoint mkdirs (t : list event) : list string :=
  match t with
  | [] => []
  | EMkdir p :: t' => p :: mkdirs t'
  | _ :: t' => mkdirs t'
  end.

(** How often the credentials have been asked for. *)
Fixpoint credential_calls (t : list event) : nat :=
  match t with
  | [] => 0%nat
  | ECredentials :: t' => S (credential_calls t')
  | _ :: t' => credential_calls t'
  end.

(** The value of [args.use_keyring] once [parse_args] has checked it. *)
Definition keyring_in_use (E : environment) (ns : namespace) : bool :=
  use_keyring ns && negb (truthy_str (password ns)) && keyring E.

(** The cache directory at the start of [main]: made, then removed again
    under [--clear-cache]. *)
Definition prepare_cache (E : environment) (args : namespace) : M unit :=
  mkdir_p E (PATH_CACHE E) ;;
  when (clear_cache args) (rmtree E (PATH_CACHE E)).

(** No character of the string is white space. *)
Fixpoint no_space (s : string) : bool :=
  match s with
  | EmptyString => true
  | String c s' => negb (Ascii.is_space c) && no_space s'
  end.

(** The loop of [main] over the courses, with the summary line. *)
Definition run_courses (E : environment) (args : namespace) : M unit :=
  completed_classes ← download_classes E args (class_names args) [] ;
  match completed_classes with
  | [] => mret tt
  | _ => logging "info" (summary completed_classes)
  end.

(** The archive after the loop over [ids], when [reply i] is the answer to
    the request for thread [i]: the bodies of the answered threads, each at
    its file, over what was there. *)
Definition stored (forums_dir : string) (reply : Z → result string) (ids : list Z)
    (fs : gmap string string) : gmap string string :=
  foldl (λ fs i, match reply i with
                 | Ok post => <[thread_file forums_dir i := post]> fs
                 | Raise _ => fs
                 end) fs ids.

(** For the threads [l] of a course, the server answers the request for
    thread [i] with [reply i] whatever came before, it refuses only with
    HTTP errors, and the thread files can be opened and written. *)
Definition well_behaved (E : environment) (class_name forums_dir : string)
    (reply : Z → result string) (l : list Z) : Prop :=
  (∀ t i, i ∈ l → page_reply E t (post_url E class_name i) = reply i)
  ∧ (∀ i e, i ∈ l → reply i = Raise e → exn_class e = HTTPError)
  ∧ (∀ t i, i ∈ l → open_fault E t (thread_file forums_dir i) = None)
  ∧ (∀ t i post, i ∈ l → write_fault E t (thread_file forums_dir i) post = None).

(** The answers of the demonstration server to the threads of a course. *)
Definition demo_reply (class_name : string) (i : Z) : result string :=
  Demo.lookup_page (Demo.post_url class_name i) Demo.pages.

(** * Properties *)

(** ** The Python library, on examples *)

Example int_of_literal_12 : int_of_literal " 12 " = Some 12.
Proof. reflexivity. Qed.
Example int_of_literal_neg : int_of_literal "-7" = Some (-7).
Proof. reflexivity. Qed.
Example int_of_literal_abc : int_of_literal "abc" = None.
Proof. reflexivity. Qed.
Example int_of_literal_empty : int_of_literal "" = None.
Proof. reflexivity. Qed.
Example int_of_literal_sign : int_of_literal "-" = None.
Proof. reflexivity. Qed.
Example path_join_demo : path_join "out" ["demo-101"; "forums"] = "out/demo-101/forums".
Proof. reflexivity. Qed.
Example path_join_empty : path_join "" ["demo-101"; "forums"] = "demo-101/forums".
Proof. reflexivity. Qed.
Example ancestors_demo : ancestors "out/demo-101/forums" = ["out"; "out/demo-101"].
Proof. reflexivity. Qed.
Example str_demo : str 12 = "12".
Proof. reflexivity. Qed.
Example range_demo : range 1 (3 + 1) = [1; 2; 3].
Proof. reflexivity. Qed.
Example range_neg : range 1 (-2 + 1) = [].
Proof. reflexivity. Qed.

(** ** Strings and paths *)

Lemma string_app_cons (c : ascii) (s t : string) :
  String c s +:+ t = String c (s +:+ t).
Proof. reflexivity. Qed.

Lemma string_app_assoc (a b c : string) : (a +:+ b) +:+ c = a +:+ b +:+ c.
Proof.
  induction a as [|x a IH]; [done |].
  rewrite !string_app_cons. by f_equal.
Qed.

Lemma string_length_app (a b : string) :
  String.length (a +:+ b) = (String.length a + String.length b)%nat.
Proof.
  induction a as [|x a IH]; [done |].
  rewrite string_app_cons. simpl. by f_equal.
Qed.

(** Appending the same suffix to different strings gives different strings. *)
Lemma string_app_inj_r (t a b : string) : a +:+ t = b +:+ t → a = b.
Proof.
  revert b. induction a as [|x a IH]; intros [|y b] H.
  - done.
  - apply (f_equal String.length) in H.
    rewrite !string_length_app in H. simpl in H. lia.
  - apply (f_equal String.length) in H.
    rewrite !string_length_app in H. simpl in H. lia.
  - rewrite !string_app_cons in H. injection H as -> H. f_equal. by apply IH.
Qed.

Lemma str_inj (i j : Z) : str i = str j → i = j.
Proof. unfold str. apply (inj pretty). Qed.

Lemma thread_file_inj (forums_dir : string) (i j : Z) :
  thread_file forums_dir i = thread_file forums_dir j → i = j.
Proof.
  unfold thread_file. intros H.
  apply (inj (String.app forums_dir)) in H.
  apply (inj (String.app "/")) in H.
  apply string_app_inj_r in H. by apply str_inj.
Qed.

Lemma range_cons (i hi : Z) : i < hi → range i hi = i :: range (i + 1) hi.
Proof.
  intros Hlt. unfold range. rewrite seqZ_cons by lia.
  f_equal. f_equal; lia.
Qed.

Lemma range_nil (i hi : Z) : hi ≤ i → range i hi = [].
Proof. intros Hle. unfold range. apply seqZ_nil. lia. Qed.

Lemma range_app (lo mid hi : Z) :
  lo ≤ mid ≤ hi → range lo hi = (range lo mid ++ range mid hi)%list.
Proof.
  intros Hle. unfold range.
  replace (hi - lo) with ((mid - lo) + (hi - mid)) by lia.
  rewrite seqZ_app by lia. do 2 f_equal. lia.
Qed.

Lemma elem_of_range (j lo hi : Z) : j ∈ range lo hi ↔ lo ≤ j < hi.
Proof. unfold range. rewrite elem_of_seqZ. lia. Qed.

(** ** The monad *)

Lemma bind_ok {A B} (m : M A) (k : A → M B) (w w' : world) (a : A) :
  m w = (Ok a, w') → (m ≫= k) w = k a w'.
Proof. intros H. unfold mbind, M_bind. by rewrite H. Qed.

Lemma bind_raise {A B} (m : M A) (k : A → M B) (w w' : world) (e : exn) :
  m w = (Raise e, w') → (m ≫= k) w = (Raise e, w').
Proof. intros H. unfold mbind, M_bind. by rewrite H. Qed.

Lemma for_each_app {A} (l1 l2 : list A) (body : A → M unit) (w : world) :
  for_each (l1 ++ l2) body w = (for_each l1 body ;; for_each l2 body) w.
Proof.
  revert w. induction l1 as [|x l1 IH]; intros w; simpl.
  - done.
  - unfold mbind, M_bind in *. destruct (body x w) as [[[]|e] w1]; [|done].
    apply IH.
Qed.

(** ** One turn of the loop over the thread ids *)

Section Threads.

Variable E : environment.
Variables class_name forums_dir : string.

Local Abbreviation post_url := (post_url E class_name).
Local Abbreviation post_url_logged := (post_url_logged E class_name).
Local Abbreviation requested := (requested E class_name).

Lemma fetch_post_unfold (i : Z) (w : world) :
  fetch_post E class_name i w
  = (page_reply E (trace (after (post_url_logged i) w)) (post_url i), requested i w).
Proof. reflexivity. Qed.

Lemma download_thread_unfold (i : Z) (w : world) :
  download_thread E class_name forums_dir i w
  = match (fetch_post E class_name i w).1 with
    | Ok post => write_file E (thread_file forums_dir i) post (requested i w)
    | Raise e =>
        if is_class HTTPError e then (Ok tt, requested i w)
        else (Raise e, requested i w)
    end.
Proof.
  rewrite fetch_post_unfold.
  unfold download_thread, try_except, mbind, M_bind, get_api_post_url, logging,
    emit, get_page, mret, M_ret. simpl.
  change (page_reply E _ _)
    with (page_reply E (trace (after (post_url_logged i) w)) (post_url i)).
  destruct (page_reply E _ _) as [post|e]; [reflexivity |].
  destruct (is_class HTTPError e); reflexivity.
Qed.

Lemma download_thread_skip (i : Z) (w : world) (e : exn) :
  (fetch_post E class_name i w).1 = Raise e →
  exn_class e = HTTPError →
  download_thread E class_name forums_dir i w = (Ok tt, requested i w).
Proof.
  intros Hreply Hclass. rewrite download_thread_unfold, Hreply.
  unfold is_class. by rewrite bool_decide_eq_true_2.
Qed.

Lemma download_thread_raise (i : Z) (w : world) (e : exn) :
  (fetch_post E class_name i w).1 = Raise e →
  exn_class e ≠ HTTPError →
  download_thread E class_name forums_dir i w = (Raise e, requested i w).
Proof.
  intros Hreply Hclass. rewrite download_thread_unfold, Hreply.
  unfold is_class. by rewrite bool_decide_eq_false_2.
Qed.

Lemma download_thread_write (i : Z) (w : world) (post : string) :
  (fetch_post E class_name i w).1 = Ok post →
  download_thread E class_name forums_dir i w
  = write_file E (thread_file forums_dir i) post (requested i w).
Proof. intros Hreply. by rewrite download_thread_unfold, Hreply. Qed.

(** A turn touches no file but its own, and no directory. *)
Lemma download_thread_frame (i : Z) (w w' : world) (r : result unit) (p : string) :
  download_thread E class_name forums_dir i w = (r, w') →
  p ≠ thread_file forums_dir i →
  files w' !! p = files w !! p.
Proof.
  intros Hrun Hp.
  destruct (fetch_post E class_name i w).1 as [post|e] eqn:Hfetch.
  - rewrite (download_thread_write _ _ _ Hfetch) in Hrun.
    unfold write_file in Hrun.
    destruct (open_fault E _ _); [by inversion Hrun |].
    destruct (write_fault E _ _ _); inversion Hrun; simpl;
      by rewrite lookup_insert_ne.
  - destruct (decide (exn_class e = HTTPError)) as [Hc|Hc].
    + rewrite (download_thread_skip _ _ _ Hfetch Hc) in Hrun. by inversion Hrun.
    + rewrite (download_thread_raise _ _ _ Hfetch Hc) in Hrun. by inversion Hrun.
Qed.

Lemma download_thread_dirs (i : Z) (w w' : world) (r : result unit) :
  download_thread E class_name forums_dir i w = (r, w') → dirs w' = dirs w.
Proof.
  intros Hrun.
  destruct (fetch_post E class_name i w).1 as [post|e] eqn:Hfetch.
  - rewrite (download_thread_write _ _ _ Hfetch) in Hrun.
    unfold write_file in Hrun.
    destruct (open_fault E _ _); [by inversion Hrun |].
    destruct (write_fault E _ _ _); by inversion Hrun.
  - destruct (decide (exn_class e = HTTPError)) as [Hc|Hc].
    + rewrite (download_thread_skip _ _ _ Hfetch Hc) in Hrun. by inversion Hrun.
    + rewrite (download_thread_raise _ _ _ Hfetch Hc) in Hrun. by inversion Hrun.
Qed.

(** The turns of other ids leave the file of [i] as it is, however the
    loop ends. *)
Lemma for_each_frame (l : list Z) (i : Z) (w w' : world) (r : result unit) :
  i ∉ l →
  for_each l (download_thread E class_name forums_dir) w = (r, w') →
  files w' !! thread_file forums_dir i = files w !! thread_file forums_dir i.
Proof.
  revert w. induction l as [|j l IH]; intros w Hnotin Hrun; simpl in Hrun.
  - by inversion Hrun.
  - apply not_elem_of_cons in Hnotin as [Hne Hnotin].
    unfold mbind, M_bind in Hrun.
    destruct (download_thread E class_name forums_dir j w) as [[[]|e] w1] eqn:Hj.
    + rewrite (IH w1 Hnotin Hrun).
      eapply download_thread_frame; [exact Hj |].
      intros Heq. apply thread_file_inj in Heq. done.
    + inversion Hrun; subst.
      eapply download_thread_frame; [exact Hj |].
      intros Heq. apply thread_file_inj in Heq. done.
Qed.

Lemma for_each_dirs (l : list Z) (w w' : world) (r : result unit) :
  for_each l (download_thread E class_name forums_dir) w = (r, w') → dirs w' = dirs w.
Proof.
  revert w. induction l as [|j l IH]; intros w Hrun; simpl in Hrun.
  - by inversion Hrun.
  - unfold mbind, M_bind in Hrun.
    destruct (download_thread E class_name forums_dir j w) as [[[]|e] w1] eqn:Hj.
    + rewrite (IH w1 Hrun). by eapply download_thread_dirs.
    + inversion Hrun; subst. by eapply download_thread_dirs.
Qed.

End Threads.

(** ** Failure isolation inside a course *)

(** C1: when the fetch of thread [i] (for [1 ≤ i ≤ n]) raises an HTTP
    error, the turn of [i] ends normally having only logged and sent the
    request: no file is opened or written, files and directories are as
    before, and the loop goes on with [i + 1] from there.  This holds in
    whatever world the loop has reached [i], in particular after the turns
    [1 .. i - 1] of the loop of a course with [n] threads. *)
Theorem http_error_skips_thread (E : environment) (class_name forums_dir : string)
    (i n : Z) (w : world) (e : exn) :
  1 ≤ i ≤ n →
  (fetch_post E class_name i w).1 = Raise e →
  exn_class e = HTTPError →
  let w' := (fetch_post E class_name i w).2 in
  download_thread E class_name forums_dir i w = (Ok tt, w')
  ∧ trace w' = (trace w ++ [post_url_logged E class_name i; EGet (post_url E class_name i)])%list
  ∧ files w' = files w
  ∧ dirs w' = dirs w
  ∧ for_each (range i (n + 1)) (download_thread E class_name forums_dir) w
    = for_each (range (i + 1) (n + 1)) (download_thread E class_name forums_dir) w'
  ∧ ∀ w0, for_each (range 1 i) (download_thread E class_name forums_dir) w0 = (Ok tt, w) →
      download_threads E class_name forums_dir n w0
      = for_each (range (i + 1) (n + 1)) (download_thread E class_name forums_dir) w'.
Proof.
  intros Hi Hfetch Hclass w'.
  assert (Hw' : w' = requested E class_name i w) by reflexivity.
  assert (Hturn : download_thread E class_name forums_dir i w = (Ok tt, w')).
  { rewrite Hw'. by eapply download_thread_skip. }
  assert (Hloop : for_each (range i (n + 1)) (download_thread E class_name forums_dir) w
    = for_each (range (i + 1) (n + 1)) (download_thread E class_name forums_dir) w').
  { rewrite (range_cons i (n + 1)) by lia. simpl. by rewrite (bind_ok _ _ _ _ _ Hturn). }
  split_and!; try done.
  - rewrite Hw'. unfold requested, after. simpl. by rewrite <- app_assoc.
  - intros w0 Hbefore. unfold download_threads.
    rewrite (range_app 1 i (n + 1)) by lia.
    rewrite for_each_app. by rewrite (bind_ok _ _ _ _ _ Hbefore).
Qed.

Lemma http_error_skips_thread_witness :
  let E := Demo.env false in
  let w := Demo.w0 in
  let w' := (fetch_post E "demo-101" 2 w).2 in
  download_thread E "demo-101" "out/demo-101/forums" 2 w = (Ok tt, w')
  ∧ trace w' = (trace w ++ [post_url_logged E "demo-101" 2; EGet (post_url E "demo-101" 2)])%list
  ∧ files w' = files w
  ∧ dirs w' = dirs w
  ∧ for_each (range 2 (3 + 1)) (download_thread E "demo-101" "out/demo-101/forums") w
    = for_each (range (2 + 1) (3 + 1)) (download_thread E "demo-101" "out/demo-101/forums") w'
  ∧ ∀ w0, for_each (range 1 2) (download_thread E "demo-101" "out/demo-101/forums") w0
          = (Ok tt, w) →
      download_threads E "demo-101" "out/demo-101/forums" 3 w0
      = for_each (range (2 + 1) (3 + 1)) (download_thread E "demo-101" "out/demo-101/forums") w'.
Proof.
  apply (http_error_skips_thread (Demo.env false) "demo-101" "out/demo-101/forums" 2 3
           Demo.w0 (Exn HTTPError "404 Client Error")).
  - lia.
  - vm_compute. reflexivity.
  - reflexivity.
Defined.

(** C3, as the code has it: when the fetch of thread [i] succeeds and the
    file can be opened and written, the turn of [i] leaves at
    [<forums_dir>/<i>.json] exactly the text the fetch returned, whatever
    was at that path before, and changes no other file; the later turns of
    the loop do not touch it, so it is still there when the loop ends,
    normally or not. *)
Theorem fetched_thread_is_written (E : environment) (class_name forums_dir : string)
    (i n : Z) (w : world) (post : string) :
  1 ≤ i ≤ n →
  (fetch_post E class_name i w).1 = Ok post →
  let w1 := (fetch_post E class_name i w).2 in
  let p := thread_file forums_dir i in
  open_fault E (trace w1) p = None →
  write_fault E (trace w1 ++ [EOpen p]) p post = None →
  (∃ w2, download_thread E class_name forums_dir i w = (Ok tt, w2)
         ∧ files w2 = <[p := post]> (files w))
  ∧ ∀ r wf, for_each (range i (n + 1)) (download_thread E class_name forums_dir) w = (r, wf) →
      files wf !! p = Some post.
Proof.
  intros Hi Hfetch w1 p Hopen Hwrite.
  assert (Hw1 : w1 = requested E class_name i w) by reflexivity.
  set (w2 := World (trace w1 ++ [EOpen p] ++ [EWrite p post]) (<[p := post]> (files w)) (dirs w)).
  assert (Hturn : download_thread E class_name forums_dir i w = (Ok tt, w2)).
  { rewrite (download_thread_write _ _ _ _ _ _ Hfetch).
    unfold write_file.
    change (open_fault E _ _) with (open_fault E (trace w1) p). rewrite Hopen.
    change (write_fault E _ _ _) with (write_fault E (trace w1 ++ [EOpen p]) p post).
    rewrite Hwrite. unfold w2. simpl. by rewrite <- app_assoc. }
  split.
  - exists w2. done.
  - intros r wf Hloop.
    rewrite (range_cons i (n + 1)) in Hloop by lia. simpl in Hloop.
    rewrite (bind_ok _ _ _ _ _ Hturn) in Hloop.
    unfold p. erewrite for_each_frame; [| | exact Hloop].
    + unfold w2. simpl. apply lookup_insert_eq.
    + rewrite elem_of_range. lia.
Qed.

Lemma fetched_thread_is_written_witness :
  let E := Demo.env false in
  let w := World [] {["out/demo-101/forums/3.json" := "stale"]} ∅ in
  let p := thread_file "out/demo-101/forums" 3 in
  (∃ w2, download_thread E "demo-101" "out/demo-101/forums" 3 w = (Ok tt, w2)
         ∧ files w2 = <[p := Demo.post_body 3]> (files w))
  ∧ ∀ r wf, for_each (range 3 (3 + 1)) (download_thread E "demo-101" "out/demo-101/forums") w
            = (r, wf) →
      files wf !! p = Some (Demo.post_body 3).
Proof.
  apply (fetched_thread_is_written (Demo.env false) "demo-101" "out/demo-101/forums" 3 3
           (World [] {["out/demo-101/forums/3.json" := "stale"]} ∅) (Demo.post_body 3)).
  - lia.
  - vm_compute. reflexivity.
  - vm_compute. reflexivity.
  - vm_compute. reflexivity.
Defined.

(** C3, as stated, fails when the file cannot be opened: the fetch of
    thread 1 succeeds, the turn ends with the exception of [open], and the
    file still holds what an earlier run left, not the text of the fetch. *)
Lemma unwritable_thread_file_keeps_old_content :
  let E := Demo.env false in
  let w := World [] {["ro/demo-101/forums/1.json" := "stale"]} ∅ in
  let r := download_thread E "demo-101" "ro/demo-101/forums" 1 w in
  (fetch_post E "demo-101" 1 w).1 = Ok (Demo.post_body 1)
  ∧ r.1 = Raise (Exn OSError "Read-only file system")
  ∧ files r.2 !! thread_file "ro/demo-101/forums" 1 = Some "stale"
  ∧ Demo.post_body 1 ≠ "stale".
Proof. vm_compute. split_and!; done. Qed.

(** ** The run of one course *)

(** Runs the straight-line part of [download_forums]: every call is
    unfolded and every answer of the outside is split into its cases. *)
Ltac run_points :=
  unfold download_forums, thread_count, fetch_index, open_archive, download_threads,
    threads_num_of, get_cookies_for_class, os_path_exists, get_api_threads_url, logging,
    emit, get_page, of_result, when, mkdir_p, mbind, M_bind, mret, M_ret in *;
  simpl in *;
  repeat case_match; simplify_eq/=; try reflexivity; try congruence.

Section Course.

Variable E : environment.
Variable args : namespace.
Variable class_name : string.

(** [download_forums] is the count of threads, then the loop, then
    [return 0]. *)
Lemma download_forums_points (w : world) :
  download_forums E args class_name w
  = (threads_num ← thread_count E args class_name ;
     download_threads E class_name (forums_dir_of args class_name) threads_num ;;
     mret 0) w.
Proof. run_points. Qed.

Local Abbreviation forums_dir := (forums_dir_of args class_name).

Lemma download_forums_ok (w w1 w2 : world) (n : Z) :
  thread_count E args class_name w = (Ok n, w1) →
  download_threads E class_name forums_dir n w1 = (Ok tt, w2) →
  download_forums E args class_name w = (Ok 0, w2).
Proof.
  intros Hcount Hloop. rewrite download_forums_points.
  rewrite (bind_ok _ _ _ _ _ Hcount). by rewrite (bind_ok _ _ _ _ _ Hloop).
Qed.

Lemma download_forums_count_raise (w w1 : world) (e : exn) :
  thread_count E args class_name w = (Raise e, w1) →
  download_forums E args class_name w = (Raise e, w1).
Proof.
  intros Hcount. rewrite download_forums_points.
  by rewrite (bind_raise _ _ _ _ _ Hcount).
Qed.

Lemma download_forums_loop_raise (w w1 w2 : world) (n : Z) (e : exn) :
  thread_count E args class_name w = (Ok n, w1) →
  download_threads E class_name forums_dir n w1 = (Raise e, w2) →
  download_forums E args class_name w = (Raise e, w2).
Proof.
  intros Hcount Hloop. rewrite download_forums_points.
  rewrite (bind_ok _ _ _ _ _ Hcount). by rewrite (bind_raise _ _ _ _ _ Hloop).
Qed.

(** Whenever [download_forums] returns, it returns 0. *)
Lemma download_forums_returns_0 (w w' : world) (r : Z) :
  download_forums E args class_name w = (Ok r, w') → r = 0.
Proof.
  rewrite download_forums_points. unfold mbind, M_bind, mret, M_ret.
  destruct (thread_count E args class_name w) as [[n|e] w1]; [|done].
  destruct (download_threads E class_name _ n w1) as [[[]|e] w2]; [|done].
  by inversion 1.
Qed.

(** *** The turn of the course in [main] *)

Lemma download_class_turn_ok (completed : list string) (w w1 : world) (r : Z) :
  download_forums E args class_name (announced class_name w) = (Ok r, w1) →
  download_class_turn E args completed class_name w
  = (Ok (if truthy_int r then (completed ++ [class_name])%list else completed), w1).
Proof.
  intros Hrun.
  unfold download_class_turn, try_except, mbind, M_bind, logging, emit. simpl.
  change (download_forums E args class_name _)
    with (download_forums E args class_name (announced class_name w)).
  rewrite Hrun. by destruct (truthy_int r).
Qed.

Lemma download_class_turn_raise (completed : list string) (w w1 : world) (e : exn) :
  download_forums E args class_name (announced class_name w) = (Raise e, w1) →
  download_class_turn E args completed class_name w
  = match main_handler E completed e with
    | Some h => h w1
    | None => (Raise e, w1)
    end.
Proof.
  intros Hrun.
  unfold download_class_turn, try_except, mbind, M_bind, logging, emit. simpl.
  change (download_forums E args class_name _)
    with (download_forums E args class_name (announced class_name w)).
  by rewrite Hrun.
Qed.

(** What a clause of [main] that matches [e] does: it either gives back
    [completed_classes] as it was or raises. *)
Lemma main_handler_keeps (completed : list string) (e : exn) (h : M (list string))
    (w w' : world) (cs : list string) :
  main_handler E completed e = Some h → h w = (Ok cs, w') → cs = completed.
Proof.
  unfold main_handler, logging, emit, debug_run, raise, mbind, M_bind, mret, M_ret.
  intros Hh Hrun.
  repeat case_match; simplify_eq/=; repeat case_match; by simplify_eq/=.
Qed.

Lemma download_class_turn_keeps (completed : list string) (w w' : world)
    (cs : list string) :
  download_class_turn E args completed class_name w = (Ok cs, w') → cs = completed.
Proof.
  destruct (download_forums E args class_name (announced class_name w))
    as [[r|e] w1] eqn:Hrun.
  - rewrite (download_class_turn_ok _ _ _ _ Hrun).
    rewrite (download_forums_returns_0 _ _ _ Hrun). simpl. by inversion 1.
  - rewrite (download_class_turn_raise _ _ _ _ Hrun).
    destruct (main_handler E completed e) as [h|] eqn:Hh; [|done].
    intros Hh'. exact (main_handler_keeps _ _ _ _ _ _ Hh Hh').
Qed.

End Course.

(** [completed_classes] is the same after the loop of [main] as before. *)
Lemma download_classes_keeps (E : environment) (args : namespace) (l : list string)
    (completed : list string) (w w' : world) (cs : list string) :
  download_classes E args l completed w = (Ok cs, w') → cs = completed.
Proof.
  revert completed w. induction l as [|c l IH]; intros completed w Hrun; simpl in Hrun.
  - by inversion Hrun.
  - unfold mbind, M_bind in Hrun.
    destruct (download_class_turn E args completed c w) as [[cs1|e] w1] eqn:Hturn; [|done].
    apply download_class_turn_keeps in Hturn as ->. by eapply IH.
Qed.

Lemma download_classes_cons (E : environment) (args : namespace) (c : string)
    (rest completed : list string) (w w1 : world) :
  download_class_turn E args completed c w = (Ok completed, w1) →
  download_classes E args (c :: rest) completed w = download_classes E args rest completed w1.
Proof. intros Hturn. simpl. by rewrite (bind_ok _ _ _ _ _ Hturn). Qed.

Lemma download_classes_abort (E : environment) (args : namespace) (c : string)
    (rest completed : list string) (w w1 : world) (e : exn) :
  download_class_turn E args completed c w = (Raise e, w1) →
  download_classes E args (c :: rest) completed w = (Raise e, w1).
Proof. intros Hturn. simpl. by rewrite (bind_raise _ _ _ _ _ Hturn). Qed.

(** ** What [main] makes of a course *)

(** C2: a course whose loop runs through all the ids [1 .. n] makes
    [download_forums] return 0; [main] tests that value for truth, so the
    course is not appended to [completed_classes], the next course starts
    with the list unchanged, and the list that feeds the summary line is
    empty at the end of every run. *)
Theorem exhausted_course_is_not_reported (E : environment) (args : namespace)
    (class_name : string) (completed rest : list string) (w w1 w2 : world) (n : Z) :
  thread_count E args class_name (announced class_name w) = (Ok n, w1) →
  download_threads E class_name (forums_dir_of args class_name) n w1 = (Ok tt, w2) →
  download_forums E args class_name (announced class_name w) = (Ok 0, w2)
  ∧ truthy_int 0 = false
  ∧ download_class_turn E args completed class_name w = (Ok completed, w2)
  ∧ download_classes E args (class_name :: rest) completed w
    = download_classes E args rest completed w2
  ∧ ∀ l w' cs wf, download_classes E args l [] w' = (Ok cs, wf) → cs = [].
Proof.
  intros Hcount Hloop.
  pose proof (download_forums_ok _ _ _ _ _ _ _ Hcount Hloop) as Hrun.
  pose proof (download_class_turn_ok _ _ _ completed _ _ _ Hrun) as Hturn.
  simpl in Hturn. split_and!; try done.
  - by apply download_classes_cons.
  - intros l w' cs wf. apply download_classes_keeps.
Qed.

Lemma exhausted_course_is_not_reported_witness :
  let E := Demo.env false in
  let args := Demo.ns ["demo-101"] in
  let w1 := (thread_count E args "demo-101" (announced "demo-101" Demo.w0)).2 in
  let w2 := (download_threads E "demo-101" (forums_dir_of args "demo-101") 3 w1).2 in
  download_forums E args "demo-101" (announced "demo-101" Demo.w0) = (Ok 0, w2)
  ∧ truthy_int 0 = false
  ∧ download_class_turn E args [] "demo-101" Demo.w0 = (Ok [], w2)
  ∧ download_classes E args ["demo-101"] [] Demo.w0 = download_classes E args [] [] w2
  ∧ ∀ l w' cs wf, download_classes E args l [] w' = (Ok cs, wf) → cs = [].
Proof.
  apply (exhausted_course_is_not_reported (Demo.env false) (Demo.ns ["demo-101"])
           "demo-101" [] [] Demo.w0
           (thread_count (Demo.env false) (Demo.ns ["demo-101"]) "demo-101"
              (announced "demo-101" Demo.w0)).2
           _ 3).
  - vm_compute. reflexivity.
  - vm_compute. reflexivity.
Defined.

(** The scenario of the specification, run through [main]: threads 1 and 3
    are written, thread 2 is skipped, the loop is exhausted, and the run
    ends without the line of completed classes. *)
Example demo_main_run :
  let r := main (Demo.env false) (Demo.ns ["demo-101"]) Demo.w0 in
  r.1 = Ok tt
  ∧ requests (trace r.2)
    = [Demo.index_url "demo-101"; Demo.post_url "demo-101" 1;
       Demo.post_url "demo-101" 2; Demo.post_url "demo-101" 3]
  ∧ map_to_list (files r.2)
    = [("out/demo-101/forums/3.json", Demo.post_body 3);
       ("out/demo-101/forums/1.json", Demo.post_body 1)]
  ∧ last (trace r.2) = Some (EWrite "out/demo-101/forums/3.json" (Demo.post_body 3)).
Proof. vm_compute. done. Qed.

(** C4, as the code has it: a failure of a course in one of the four
    classes [main] has a clause for is logged (with the TLS hint for an
    [SSLError]); then the turn of the next course starts with
    [completed_classes] unchanged, except that an [SSLError] in a debug run
    is raised again, which ends the loop over the courses there. *)
Theorem course_failure_is_contained (E : environment) (args : namespace)
    (class_name : string) (completed rest : list string) (w w1 : world) (e : exn) :
  download_forums E args class_name (announced class_name w) = (Raise e, w1) →
  exn_class e ∈ course_level →
  let w2 := reported e w1 in
  if bool_decide (exn_class e = SSLError) && is_debug_run E (trace w2)
  then download_classes E args (class_name :: rest) completed w = (Raise e, w2)
  else download_class_turn E args completed class_name w = (Ok completed, w2)
       ∧ download_classes E args (class_name :: rest) completed w
         = download_classes E args rest completed w2.
Proof.
  intros Hrun Hclass w2.
  pose proof (download_class_turn_raise _ _ _ completed _ _ _ Hrun) as Hturn.
  assert (Hcases : exn_class e = HTTPError ∨ exn_class e = SSLError
                   ∨ exn_class e = ClassNotFound ∨ exn_class e = AuthenticationFailed).
  { unfold course_level in Hclass. rewrite !elem_of_cons, elem_of_nil in Hclass. tauto. }
  unfold main_handler, is_class in Hturn.
  unfold w2, reported, failure_report.
  destruct Hcases as [Hc|[Hc|[Hc|Hc]]]; rewrite Hc in *; simpl in *.
  - split; [exact Hturn |]. by apply download_classes_cons.
  - unfold logging, emit, debug_run, raise, mbind, M_bind, mret, M_ret in Hturn.
    simpl in Hturn. rewrite <- app_assoc in Hturn. simpl in Hturn.
    destruct (is_debug_run E _).
    + by apply download_classes_abort.
    + split; [exact Hturn |]. by apply download_classes_cons.
  - split; [exact Hturn |]. by apply download_classes_cons.
  - split; [exact Hturn |]. by apply download_classes_cons.
Qed.

Lemma course_failure_is_contained_witness :
  let E := Demo.env false in
  let args := Demo.ns ["down-1"; "demo-101"] in
  let e := Exn HTTPError "500 Server Error" in
  let w1 := (download_forums E args "down-1" (announced "down-1" Demo.w0)).2 in
  let w2 := reported e w1 in
  if bool_decide (exn_class e = SSLError) && is_debug_run E (trace w2)
  then download_classes E args ["down-1"; "demo-101"] [] Demo.w0 = (Raise e, w2)
  else download_class_turn E args [] "down-1" Demo.w0 = (Ok [], w2)
       ∧ download_classes E args ["down-1"; "demo-101"] [] Demo.w0
         = download_classes E args ["demo-101"] [] w2.
Proof.
  apply (course_failure_is_contained (Demo.env false) (Demo.ns ["down-1"; "demo-101"])
           "down-1" [] ["demo-101"] Demo.w0
           (download_forums (Demo.env false) (Demo.ns ["down-1"; "demo-101"]) "down-1"
              (announced "down-1" Demo.w0)).2
           (Exn HTTPError "500 Server Error")).
  - vm_compute. reflexivity.
  - vm_compute. set_solver.
Defined.

(** C4, as stated, fails in a debug run: the TLS failure of the first course
    is raised again by its clause, and the second course is never started. *)
Lemma debug_tls_failure_ends_batch :
  let r := download_classes (Demo.env true) (Demo.ns ["tls-1"; "demo-101"])
             ["tls-1"; "demo-101"] [] Demo.w0 in
  r.1 = Raise (Exn SSLError "certificate verify failed")
  ∧ trace r.2
    = [ELog "info" "Downloading class: tls-1"; EAuth "tls-1";
       ELog "error" "SSLError certificate verify failed";
       ESslHint (Exn SSLError "certificate verify failed")].
Proof. vm_compute. done. Qed.

(** ** Authentication, the archive directory and the index *)

Lemma requests_app (t1 t2 : list event) :
  requests (t1 ++ t2) = (requests t1 ++ requests t2)%list.
Proof.
  induction t1 as [|ev t1 IH]; [done |].
  destruct ev; simpl; by rewrite ?IH.
Qed.

Lemma requests_failure_report (e : exn) : requests (failure_report e) = [].
Proof. unfold failure_report. by destruct (exn_class e). Qed.

Section Prefix.

Variable E : environment.
Variable args : namespace.
Variable class_name : string.

Local Abbreviation d := (forums_dir_of args class_name).
Local Abbreviation nd := (normalize_path E (forums_dir_of args class_name)).

Lemma download_forums_auth_fails (w : world) (e : exn) :
  cookies_reply E (trace w) class_name (cookies_file args) (username args) (password args)
  = Some e →
  download_forums E args class_name w = (Raise e, after (EAuth class_name) w).
Proof.
  intros Hauth.
  unfold download_forums, get_cookies_for_class, mbind, M_bind. simpl.
  by rewrite Hauth.
Qed.

(** The archive directory is made right after the cookies are there. *)
Lemma open_archive_creates (w : world) :
  cookies_reply E (trace w) class_name (cookies_file args) (username args) (password args)
  = None →
  path_exists d w = false →
  mkdir_fault E (trace w ++ [EAuth class_name]) nd = None →
  open_archive E args class_name w
  = (Ok d, World (trace w ++ [EAuth class_name; EMkdir nd]) (files w)
             ({[nd]} ∪ list_to_set (ancestors nd) ∪ dirs w)).
Proof.
  intros Hauth Hfound Hmkdir.
  unfold open_archive, get_cookies_for_class, os_path_exists, when, mkdir_p,
    mbind, M_bind, mret, M_ret. simpl.
  rewrite Hauth. unfold path_exists in *. simpl. rewrite Hfound. simpl.
  rewrite Hmkdir. by rewrite <- app_assoc.
Qed.

Lemma fetch_index_after_archive (w w1 : world) (dir : string) :
  open_archive E args class_name w = (Ok dir, w1) →
  fetch_index E args class_name w
  = (page_reply E (trace w1 ++ [index_url_logged E class_name]) (index_url E class_name),
     after (EGet (index_url E class_name)) (after (index_url_logged E class_name) w1)).
Proof.
  intros Harchive. unfold fetch_index. rewrite (bind_ok _ _ _ _ _ Harchive).
  reflexivity.
Qed.

Lemma thread_count_after_index (w w1 : world) (text : string) :
  fetch_index E args class_name w = (Ok text, w1) →
  thread_count E args class_name w
  = (match json_loads E text with
     | Ok threads => threads_num_of threads
     | Raise e => Raise e
     end, w1).
Proof.
  intros Hindex. unfold thread_count. rewrite (bind_ok _ _ _ _ _ Hindex).
  unfold of_result, mbind, M_bind. by destruct (json_loads E text).
Qed.

Lemma thread_count_index_raise (w w1 : world) (e : exn) :
  fetch_index E args class_name w = (Raise e, w1) →
  thread_count E args class_name w = (Raise e, w1).
Proof. intros Hindex. unfold thread_count. by rewrite (bind_raise _ _ _ _ _ Hindex). Qed.

(** What a successful index request leaves behind. *)
Lemma fetch_index_inv (w w1 : world) (text : string) :
  fetch_index E args class_name w = (Ok text, w1) →
  files w1 = files w
  ∧ requests (trace w1) = (requests (trace w) ++ [index_url E class_name])%list
  ∧ (if path_exists d w then dirs w1 = dirs w
     else dirs w1 = {[nd]} ∪ list_to_set (ancestors nd) ∪ dirs w).
Proof.
  unfold fetch_index, open_archive, get_cookies_for_class, os_path_exists, when, mkdir_p,
    get_api_threads_url, logging, emit, get_page, mbind, M_bind, mret, M_ret. simpl.
  intros Hrun.
  destruct (cookies_reply E _ _ _ _ _); [done |].
  change (path_exists d _) with (path_exists d w) in Hrun.
  destruct (path_exists d w) eqn:Hfound; simpl in Hrun.
  - inversion Hrun; subst; simpl. split_and!; try done.
    rewrite !requests_app. simpl. by rewrite !app_nil_r.
  - destruct (mkdir_fault E _ _); [done |].
    inversion Hrun; subst; simpl. split_and!; try done.
    rewrite !requests_app. simpl. by rewrite !app_nil_r.
Qed.

(** Once the archive is open, nothing in the run changes the directories. *)
Lemma download_forums_dirs (w w1 w' : world) (dir : string) (r : result Z) :
  open_archive E args class_name w = (Ok dir, w1) →
  download_forums E args class_name w = (r, w') →
  dirs w' = dirs w1.
Proof.
  intros Harchive. rewrite download_forums_points.
  pose proof (fetch_index_after_archive _ _ _ Harchive) as Hindex.
  unfold mbind, M_bind, mret, M_ret.
  destruct (page_reply E _ _) as [text|e].
  - rewrite (thread_count_after_index _ _ _ Hindex).
    destruct (match json_loads E text with Ok t => _ | Raise e => _ end) as [n|e].
    + destruct (download_threads E class_name _ n _) as [[[]|e] w2] eqn:Hloop;
        intros; simplify_eq; by rewrite (for_each_dirs _ _ _ _ _ _ _ Hloop).
    + by intros; simplify_eq.
  - rewrite (thread_count_index_raise _ _ _ Hindex).
    by intros; simplify_eq.
Qed.

End Prefix.

(** C7: when the authentication of a course fails with [ClassNotFound] or
    [AuthenticationFailed], [download_forums] stops at that call: no
    directory and no file is created or changed, no request is sent, the
    failure is logged by [main], and the turn of the next course starts with
    [completed_classes] unchanged. *)
Theorem failed_authentication_creates_nothing (E : environment) (args : namespace)
    (class_name : string) (completed rest : list string) (w : world) (e : exn) :
  cookies_reply E (trace (announced class_name w)) class_name
    (cookies_file args) (username args) (password args) = Some e →
  exn_class e = ClassNotFound ∨ exn_class e = AuthenticationFailed →
  let w1 := after (EAuth class_name) (announced class_name w) in
  let w2 := reported e w1 in
  download_forums E args class_name (announced class_name w) = (Raise e, w1)
  ∧ download_class_turn E args completed class_name w = (Ok completed, w2)
  ∧ files w2 = files w
  ∧ dirs w2 = dirs w
  ∧ requests (trace w2) = requests (trace w)
  ∧ download_classes E args (class_name :: rest) completed w
    = download_classes E args rest completed w2.
Proof.
  intros Hauth Hclass w1 w2.
  pose proof (download_forums_auth_fails _ _ _ _ _ Hauth) as Hrun.
  assert (Hturn : download_class_turn E args completed class_name w = (Ok completed, w2)).
  { rewrite (download_class_turn_raise _ _ _ _ _ _ _ Hrun).
    unfold main_handler, is_class, w2, reported, failure_report.
    destruct Hclass as [Hc|Hc]; rewrite Hc; reflexivity. }
  split_and!; try done.
  - unfold w2, reported, w1, after, announced. simpl.
    rewrite !requests_app, requests_failure_report. simpl. by rewrite !app_nil_r.
  - by apply download_classes_cons.
Qed.

Lemma failed_authentication_creates_nothing_witness :
  let E := Demo.env false in
  let args := Demo.ns ["gone-1"; "demo-101"] in
  let e := Exn ClassNotFound "gone-1" in
  let w1 := after (EAuth "gone-1") (announced "gone-1" Demo.w0) in
  let w2 := reported e w1 in
  download_forums E args "gone-1" (announced "gone-1" Demo.w0) = (Raise e, w1)
  ∧ download_class_turn E args [] "gone-1" Demo.w0 = (Ok [], w2)
  ∧ files w2 = files Demo.w0
  ∧ dirs w2 = dirs Demo.w0
  ∧ requests (trace w2) = requests (trace Demo.w0)
  ∧ download_classes E args ["gone-1"; "demo-101"] [] Demo.w0
    = download_classes E args ["demo-101"] [] w2.
Proof.
  apply (failed_authentication_creates_nothing (Demo.env false)
           (Demo.ns ["gone-1"; "demo-101"]) "gone-1" [] ["demo-101"] Demo.w0
           (Exn ClassNotFound "gone-1")).
  - reflexivity.
  - left. reflexivity.
Defined.

(** C5, as the code has it: the archive directory is made right after the
    authentication has succeeded and before the index is requested, so the
    index request is sent in a world that already has the directory, and
    the directory is there at the end of the run however the index request
    and the loop end.  When the authentication fails the directories are
    left as they were. *)
Theorem archive_dir_precedes_index (E : environment) (args : namespace)
    (class_name : string) (w : world) :
  let d := forums_dir_of args class_name in
  let nd := normalize_path E d in
  cookies_reply E (trace w) class_name (cookies_file args) (username args) (password args)
  = None →
  path_exists d w = false →
  mkdir_fault E (trace w ++ [EAuth class_name]) nd = None →
  let w1 := World (trace w ++ [EAuth class_name; EMkdir nd]) (files w)
              ({[nd]} ∪ list_to_set (ancestors nd) ∪ dirs w) in
  open_archive E args class_name w = (Ok d, w1)
  ∧ fetch_index E args class_name w
    = (page_reply E (trace w1 ++ [index_url_logged E class_name]) (index_url E class_name),
       after (EGet (index_url E class_name)) (after (index_url_logged E class_name) w1))
  ∧ (∀ r w', download_forums E args class_name w = (r, w') → nd ∈ dirs w')
  ∧ (∀ w0 e r w', cookies_reply E (trace w0) class_name (cookies_file args) (username args)
                    (password args) = Some e →
       download_forums E args class_name w0 = (r, w') → dirs w' = dirs w0).
Proof.
  intros d nd Hauth Hfound Hmkdir w1.
  pose proof (open_archive_creates _ _ _ _ Hauth Hfound Hmkdir) as Harchive.
  fold d nd w1 in Harchive.
  split_and!.
  - exact Harchive.
  - by apply fetch_index_after_archive with d.
  - intros r w' Hrun.
    rewrite (download_forums_dirs _ _ _ _ _ _ _ _ Harchive Hrun).
    unfold w1. simpl. set_solver.
  - intros w0 e r w' Hfail Hrun.
    rewrite (download_forums_auth_fails _ _ _ _ _ Hfail) in Hrun.
    by inversion Hrun.
Qed.

Lemma archive_dir_precedes_index_witness :
  let E := Demo.env false in
  let args := Demo.ns ["down-1"] in
  let w := Demo.w0 in
  let nd := "out/down-1/forums" in
  let w1 := World (trace w ++ [EAuth "down-1"; EMkdir nd]) (files w)
              ({[nd]} ∪ list_to_set (ancestors nd) ∪ dirs w) in
  open_archive E args "down-1" w = (Ok nd, w1)
  ∧ fetch_index E args "down-1" w
    = (page_reply E (trace w1 ++ [index_url_logged E "down-1"]) (index_url E "down-1"),
       after (EGet (index_url E "down-1")) (after (index_url_logged E "down-1") w1))
  ∧ (∀ r w', download_forums E args "down-1" w = (r, w') → nd ∈ dirs w')
  ∧ (∀ w0 e r w', cookies_reply E (trace w0) "down-1" (cookies_file args) (username args)
                    (password args) = Some e →
       download_forums E args "down-1" w0 = (r, w') → dirs w' = dirs w0).
Proof.
  apply (archive_dir_precedes_index (Demo.env false) (Demo.ns ["down-1"]) "down-1" Demo.w0).
  - reflexivity.
  - vm_compute. reflexivity.
  - reflexivity.
Defined.

(** C5, as stated, fails: the index request of this course is answered with
    an HTTP error, and the run has created the archive directory. *)
Lemma failed_index_leaves_archive_dir :
  let r := download_forums (Demo.env false) (Demo.ns ["down-1"]) "down-1" Demo.w0 in
  r.1 = Raise (Exn HTTPError "500 Server Error")
  ∧ requests (trace r.2) = [Demo.index_url "down-1"]
  ∧ path_exists "out/down-1/forums" Demo.w0 = false
  ∧ path_exists "out/down-1/forums" r.2 = true
  ∧ trace r.2
    = [EAuth "down-1"; EMkdir "out/down-1/forums";
       ELog "debug" ("Using index mode with page: " +:+ Demo.index_url "down-1");
       EGet (Demo.index_url "down-1")].
Proof. vm_compute. done. Qed.

(** ** The thread count *)

Lemma download_threads_0 (E : environment) (class_name forums_dir : string) (w : world) :
  download_threads E class_name forums_dir 0 w = (Ok tt, w).
Proof. reflexivity. Qed.

(** The exceptions [int] can raise. *)
Lemma int_raise_class (v : value) (e : exn) :
  int v = Raise e → exn_class e ∈ [ValueError; TypeError; OverflowError].
Proof.
  destruct v as [|b|z|[q|neg|]|s|l|d]; simpl; try destruct (int_of_literal s);
    intros H; simplify_eq; simpl; rewrite !elem_of_cons; tauto.
Qed.

(** C6: for an index without [total_threads], or with a [total_threads]
    whose integer value is 0, the thread count is 0, the loop does nothing,
    the only request of the course is the one for the index, no file is
    written, and the archive directory is there; but [download_forums]
    returns 0 also here, so [main] does not append the course to
    [completed_classes]. *)
Theorem empty_course_is_not_reported (E : environment) (args : namespace)
    (class_name : string) (completed rest : list string) (w w1 : world)
    (text : string) (threads : value) :
  fetch_index E args class_name (announced class_name w) = (Ok text, w1) →
  json_loads E text = Ok threads →
  (contains "total_threads" threads = Ok false
   ∨ ∃ v, contains "total_threads" threads = Ok true
          ∧ getitem threads "total_threads" = Ok v ∧ int v = Ok 0) →
  let d := forums_dir_of args class_name in
  thread_count E args class_name (announced class_name w) = (Ok 0, w1)
  ∧ download_threads E class_name d 0 w1 = (Ok tt, w1)
  ∧ download_forums E args class_name (announced class_name w) = (Ok 0, w1)
  ∧ requests (trace w1) = (requests (trace w) ++ [index_url E class_name])%list
  ∧ files w1 = files w
  ∧ (path_exists d w = true ∨ normalize_path E d ∈ dirs w1)
  ∧ download_class_turn E args completed class_name w = (Ok completed, w1)
  ∧ download_classes E args (class_name :: rest) completed w
    = download_classes E args rest completed w1.
Proof.
  intros Hindex Hloads Hfield d.
  assert (Hcount : thread_count E args class_name (announced class_name w) = (Ok 0, w1)).
  { rewrite (thread_count_after_index _ _ _ _ _ _ Hindex), Hloads.
    unfold threads_num_of.
    destruct Hfield as [-> | (v & -> & -> & ->)]; reflexivity. }
  pose proof (download_forums_ok _ _ _ _ _ _ _ Hcount (download_threads_0 _ _ _ _)) as Hrun.
  pose proof (download_class_turn_ok _ _ _ completed _ _ _ Hrun) as Hturn. simpl in Hturn.
  destruct (fetch_index_inv _ _ _ _ _ _ Hindex) as (Hfiles & Hreq & Hdirs).
  split_and!; try done.
  - rewrite Hreq. unfold announced, after. simpl.
    rewrite requests_app. simpl. by rewrite app_nil_r.
  - change (path_exists (forums_dir_of args class_name) (announced class_name w))
      with (path_exists d w) in Hdirs.
    destruct (path_exists d w); [by left | right].
    rewrite Hdirs, !elem_of_union, elem_of_singleton. by left; left.
  - by apply download_classes_cons.
Qed.

Lemma empty_course_is_not_reported_witness :
  let E := Demo.env false in
  let args := Demo.ns ["empty-1"] in
  let w1 := (fetch_index E args "empty-1" (announced "empty-1" Demo.w0)).2 in
  let d := forums_dir_of args "empty-1" in
  thread_count E args "empty-1" (announced "empty-1" Demo.w0) = (Ok 0, w1)
  ∧ download_threads E "empty-1" d 0 w1 = (Ok tt, w1)
  ∧ download_forums E args "empty-1" (announced "empty-1" Demo.w0) = (Ok 0, w1)
  ∧ requests (trace w1) = (requests (trace Demo.w0) ++ [index_url E "empty-1"])%list
  ∧ files w1 = files Demo.w0
  ∧ (path_exists d Demo.w0 = true ∨ normalize_path E d ∈ dirs w1)
  ∧ download_class_turn E args [] "empty-1" Demo.w0 = (Ok [], w1)
  ∧ download_classes E args ["empty-1"] [] Demo.w0 = download_classes E args [] [] w1.
Proof.
  apply (empty_course_is_not_reported (Demo.env false) (Demo.ns ["empty-1"]) "empty-1"
           [] [] Demo.w0
           (fetch_index (Demo.env false) (Demo.ns ["empty-1"]) "empty-1"
              (announced "empty-1" Demo.w0)).2
           Demo.index_none (PDict [("threads", PList [])])).
  - vm_compute. reflexivity.
  - vm_compute. reflexivity.
  - left. vm_compute. reflexivity.
Defined.

(** *** What [int] rejects *)










(** The same through [main]: the process ends with the [ValueError] and
    status 1, and [demo-101] is never requested. *)
Example demo_bad_count_main :
  let r := main (Demo.env false) (Demo.ns ["broken-1"; "demo-101"]) Demo.w0 in
  r.1 = Raise (Exn ValueError "invalid literal for int() with base 10: 'many'")
  ∧ exit_status r.1 = 1
  ∧ requests (trace r.2) = [Demo.index_url "broken-1"].
Proof. vm_compute. done. Qed.

(** ** Failures of a turn that are not skipped *)

Section Escalation.

Variable E : environment.
Variables class_name forums_dir : string.

Lemma thread_failure_raises (i : Z) (w wf : world) (e : exn) :
  thread_failure E class_name forums_dir i w e wf →
  download_thread E class_name forums_dir i w = (Raise e, wf).
Proof.
  intros [Hfetch Hclass | post Hfetch Hopen | post Hfetch Hopen Hwrite].
  - by apply download_thread_raise.
  - rewrite (download_thread_write _ _ _ _ _ _ Hfetch).
    unfold write_file. by rewrite Hopen.
  - rewrite (download_thread_write _ _ _ _ _ _ Hfetch).
    unfold write_file. rewrite Hopen.
    change (write_fault E _ _ _)
      with (write_fault E (trace (requested E class_name i w)
                             ++ [EOpen (thread_file forums_dir i)])
              (thread_file forums_dir i) post).
    rewrite Hwrite. simpl. by rewrite <- app_assoc.
Qed.

(** The request for thread [i] is the last one of the failed turn. *)
Lemma thread_failure_requests (i : Z) (w wf : world) (e : exn) :
  thread_failure E class_name forums_dir i w e wf →
  requests (trace wf) = (requests (trace w) ++ [post_url E class_name i])%list.
Proof.
  intros [Hfetch Hclass | post Hfetch Hopen | post Hfetch Hopen Hwrite];
    unfold requested, after, post_url_logged; simpl;
    rewrite !requests_app; simpl; by rewrite !app_nil_r.
Qed.

End Escalation.

(** C9: in the turn of thread [i], an exception of the fetch that is not an
    HTTP error, and an exception of opening or of writing the file, leave
    the turn, the loop and [download_forums]: the request for [i] is the
    last request of the course, and the exception reaches the clauses of
    [main] as the failure of the course. *)
Theorem thread_failure_escalates (E : environment) (args : namespace)
    (class_name : string) (completed : list string) (w w0 wi wf : world)
    (n i : Z) (e : exn) :
  let d := forums_dir_of args class_name in
  thread_count E args class_name (announced class_name w) = (Ok n, w0) →
  1 ≤ i ≤ n →
  for_each (range 1 i) (download_thread E class_name d) w0 = (Ok tt, wi) →
  thread_failure E class_name d i wi e wf →
  download_thread E class_name d i wi = (Raise e, wf)
  ∧ requests (trace wf) = (requests (trace wi) ++ [post_url E class_name i])%list
  ∧ download_threads E class_name d n w0 = (Raise e, wf)
  ∧ download_forums E args class_name (announced class_name w) = (Raise e, wf)
  ∧ download_class_turn E args completed class_name w
    = match main_handler E completed e with
      | Some h => h wf
      | None => (Raise e, wf)
      end.
Proof.
  intros d Hcount Hi Hbefore Hfail.
  pose proof (thread_failure_raises _ _ _ _ _ _ _ Hfail) as Hturn.
  assert (Hloop : download_threads E class_name d n w0 = (Raise e, wf)).
  { unfold download_threads.
    rewrite (range_app 1 i (n + 1)) by lia.
    rewrite for_each_app, (bind_ok _ _ _ _ _ Hbefore).
    rewrite (range_cons i (n + 1)) by lia. simpl.
    by rewrite (bind_raise _ _ _ _ _ Hturn). }
  pose proof (download_forums_loop_raise _ _ _ _ _ _ _ _ Hcount Hloop) as Hrun.
  split_and!; try done.
  - by eapply thread_failure_requests.
  - by apply download_class_turn_raise.
Qed.

Lemma thread_failure_escalates_witness :
  let E := Demo.env false in
  let args := set_path "ro" (Demo.ns ["demo-101"]) in
  let d := forums_dir_of args "demo-101" in
  let e := Exn OSError "Read-only file system" in
  let w0 := (thread_count E args "demo-101" (announced "demo-101" Demo.w0)).2 in
  let wf := after (EOpen (thread_file d 1)) (requested E "demo-101" 1 w0) in
  download_thread E "demo-101" d 1 w0 = (Raise e, wf)
  ∧ requests (trace wf) = (requests (trace w0) ++ [post_url E "demo-101" 1])%list
  ∧ download_threads E "demo-101" d 3 w0 = (Raise e, wf)
  ∧ download_forums E args "demo-101" (announced "demo-101" Demo.w0) = (Raise e, wf)
  ∧ download_class_turn E args [] "demo-101" Demo.w0
    = match main_handler E [] e with
      | Some h => h wf
      | None => (Raise e, wf)
      end.
Proof.
  apply (thread_failure_escalates (Demo.env false) (set_path "ro" (Demo.ns ["demo-101"]))
           "demo-101" [] Demo.w0
           (thread_count (Demo.env false) (set_path "ro" (Demo.ns ["demo-101"])) "demo-101"
              (announced "demo-101" Demo.w0)).2
           (thread_count (Demo.env false) (set_path "ro" (Demo.ns ["demo-101"])) "demo-101"
              (announced "demo-101" Demo.w0)).2
           _ 3 1 (Exn OSError "Read-only file system")).
  - vm_compute. reflexivity.
  - lia.
  - vm_compute. reflexivity.
  - apply (open_failed _ _ _ _ _ _ (Demo.post_body 1)).
    + vm_compute. reflexivity.
    + vm_compute. reflexivity.
Defined.

(** What [main] makes of such failures in the demonstration: a dropped
    connection and a file that cannot be opened match no clause and end the
    process with status 1 before the next course is started. *)
Example demo_connection_error_main :
  let r := main (Demo.env false) (Demo.ns ["flaky-1"; "demo-101"]) Demo.w0 in
  r.1 = Raise (Exn ConnectionError "Connection aborted")
  ∧ exit_status r.1 = 1
  ∧ requests (trace r.2) = [Demo.index_url "flaky-1"; Demo.post_url "flaky-1" 1]
  ∧ map_to_list (files r.2) = [].
Proof. vm_compute. done. Qed.

Example demo_open_error_main :
  let r := main (Demo.env false) (set_path "ro" (Demo.ns ["demo-101"; "empty-1"])) Demo.w0 in
  r.1 = Raise (Exn OSError "Read-only file system")
  ∧ exit_status r.1 = 1
  ∧ requests (trace r.2) = [Demo.index_url "demo-101"; Demo.post_url "demo-101" 1]
  ∧ map_to_list (files r.2) = [].
Proof. vm_compute. done. Qed.

(** ** The command line *)

Lemma requests_keyring_warnings (E : environment) (ns : namespace) :
  requests (keyring_warnings E ns) = [].
Proof. unfold keyring_warnings. by repeat case_match. Qed.

(** C8, as the code has it: when [--version] is not given and the cookies
    file named on the command line (a non-empty path) does not exist,
    [parse_args] logs the error and exits with status 1; [main] ends there,
    having sent no request, asked for no credentials, started no course and
    touched no file or directory. *)
Theorem missing_cookies_file_exits (E : environment) (ns : namespace) (w : world)
    (p : string) :
  version ns = false →
  cookies_file ns = Some p →
  p ≠ "" →
  path_exists p w = false →
  let w' := World (trace w ++ keyring_warnings E ns
                     ++ [ELog "error" ("Cookies file not found: " +:+ p)])
              (files w) (dirs w) in
  parse_args E ns w = (Raise (Exn (SystemExit 1) ""), w')
  ∧ main E ns w = (Raise (Exn (SystemExit 1) ""), w')
  ∧ exit_status (main E ns w).1 = 1
  ∧ requests (trace w') = requests (trace w).
Proof.
  intros Hversion Hcookies Hp Hfound w'.
  assert (Hparse : parse_args E ns w = (Raise (Exn (SystemExit 1) ""), w')).
  { unfold w', keyring_warnings, parse_args, when, print, sys_exit, raise, logging, emit,
      os_path_exists, mbind, M_bind, mret, M_ret.
    rewrite Hversion. simpl.
    destruct (use_keyring ns) eqn:Hk, (truthy_str (password ns)) eqn:Hpw,
      (keyring E) eqn:Hkr; simpl;
      rewrite ?Hk, ?Hpw, ?Hkr; simpl; rewrite ?Hcookies; simpl;
      rewrite ?(bool_decide_eq_false_2 _ Hp); simpl;
      change (path_exists p _) with (path_exists p w); rewrite Hfound; simpl;
      rewrite <- ?app_assoc, ?app_nil_r; reflexivity. }
  assert (Hmain : main E ns w = (Raise (Exn (SystemExit 1) ""), w')).
  { unfold main. by rewrite (bind_raise _ _ _ _ _ Hparse). }
  split_and!; try done.
  - by rewrite Hmain.
  - unfold w'. simpl. rewrite !requests_app, requests_keyring_warnings. simpl.
    by rewrite app_nil_r.
Qed.

Lemma missing_cookies_file_exits_witness :
  let E := Demo.env false in
  let ns := Namespace ["demo-101"] None None "out" (Some "cookies.txt") NetrcOff
              false false false false false None in
  let w' := World (trace Demo.w0 ++ keyring_warnings E ns
                     ++ [ELog "error" ("Cookies file not found: " +:+ "cookies.txt")])
              (files Demo.w0) (dirs Demo.w0) in
  parse_args E ns Demo.w0 = (Raise (Exn (SystemExit 1) ""), w')
  ∧ main E ns Demo.w0 = (Raise (Exn (SystemExit 1) ""), w')
  ∧ exit_status (main E ns Demo.w0).1 = 1
  ∧ requests (trace w') = requests (trace Demo.w0).
Proof.
  apply (missing_cookies_file_exits (Demo.env false)
           (Namespace ["demo-101"] None None "out" (Some "cookies.txt") NetrcOff
              false false false false false None)
           Demo.w0 "cookies.txt").
  - reflexivity.
  - reflexivity.
  - discriminate.
  - vm_compute. reflexivity.
Defined.

(** An empty path after [--cookies_file] counts as no cookies file: the
    credentials are asked for and the run goes on to the courses. *)
Example empty_cookies_path_is_ignored :
  let ns := Namespace ["empty-1"] (Some "user") (Some "secret") "out" (Some "") NetrcOff
              false false false false false None in
  let r := main (Demo.env false) ns Demo.w0 in
  path_exists "" Demo.w0 = false
  ∧ r.1 = Ok tt
  ∧ requests (trace r.2) = [Demo.index_url "empty-1"].
Proof. vm_compute. done. Qed.

(** C8, as stated, fails when [--version] is given as well: the version is
    printed and the process exits with status 0 before the cookies file is
    looked at. *)
Lemma version_flag_exits_before_cookies_check :
  let ns := Namespace ["demo-101"] None None "out" (Some "cookies.txt") NetrcOff
              false false false false true None in
  let r := main (Demo.env false) ns Demo.w0 in
  path_exists "cookies.txt" Demo.w0 = false
  ∧ r.1 = Raise (Exn (SystemExit 0) "")
  ∧ exit_status r.1 = 0
  ∧ trace r.2 = [EPrint "0.1"].
Proof. vm_compute. done. Qed.

(** * Further properties of the script *)

(** ** Projections of the trace *)

Lemma auths_app (t1 t2 : list event) : auths (t1 ++ t2) = (auths t1 ++ auths t2)%list.
Proof.
  induction t1 as [|ev t1 IH]; [done |].
  destruct ev; simpl; by rewrite ?IH.
Qed.

Lemma mkdirs_app (t1 t2 : list event) : mkdirs (t1 ++ t2) = (mkdirs t1 ++ mkdirs t2)%list.
Proof.
  induction t1 as [|ev t1 IH]; [done |].
  destruct ev; simpl; by rewrite ?IH.
Qed.

Lemma credential_calls_app (t1 t2 : list event) :
  credential_calls (t1 ++ t2) = (credential_calls t1 + credential_calls t2)%nat.
Proof.
  induction t1 as [|ev t1 IH]; [done |].
  destruct ev; simpl; by rewrite ?IH.
Qed.

(** Brings the projections of a trace built by appending to normal form. *)
Ltac project_trace :=
  simpl;
  rewrite ?requests_app, ?auths_app, ?mkdirs_app, ?credential_calls_app;
  simpl;
  rewrite ?app_nil_r, ?Nat.add_0_r;
  try done.

(** ** [parse_args] *)

Lemma parse_args_frame (E : environment) (ns : namespace) (w w' : world)
    (r : result namespace) :
  parse_args E ns w = (r, w') →
  files w' = files w
  ∧ dirs w' = dirs w
  ∧ requests (trace w') = requests (trace w)
  ∧ auths (trace w') = auths (trace w).
Proof.
  unfold parse_args, when, print, sys_exit, raise, logging, emit, os_path_exists,
    try_except, get_credentials, mbind, M_bind, mret, M_ret.
  intros Hrun. simpl in Hrun.
  repeat (case_match; simplify_eq/=); split_and!; project_trace.
Qed.

(** X1: whatever the command line and however it ends, [parse_args] sends no
    request, asks for no cookies, and leaves files and directories as they
    are. *)
Theorem parse_args_touches_nothing (E : environment) (ns : namespace) (w w' : world)
    (r : result namespace) :
  parse_args E ns w = (r, w') →
  files w' = files w
  ∧ dirs w' = dirs w
  ∧ requests (trace w') = requests (trace w)
  ∧ auths (trace w') = auths (trace w).
Proof.
  unfold parse_args, when, print, sys_exit, raise, logging, emit, os_path_exists,
    try_except, get_credentials, mbind, M_bind, mret, M_ret.
  intros Hrun. simpl in Hrun.
  repeat (case_match; simplify_eq/=); split_and!; project_trace.
Qed.

Lemma parse_args_touches_nothing_witness :
  let r := parse_args (Demo.env false) (Demo.ns ["demo-101"]) Demo.w0 in
  files r.2 = files Demo.w0
  ∧ dirs r.2 = dirs Demo.w0
  ∧ requests (trace r.2) = requests (trace Demo.w0)
  ∧ auths (trace r.2) = auths (trace Demo.w0).
Proof.
  apply (parse_args_touches_nothing (Demo.env false) (Demo.ns ["demo-101"]) Demo.w0 _
           (parse_args (Demo.env false) (Demo.ns ["demo-101"]) Demo.w0).1).
  vm_compute. reflexivity.
Defined.

(** Runs [parse_args] on a namespace given by its fields. *)
Ltac run_parse_args :=
  unfold parse_args, keyring_warnings, keyring_in_use, when, print, sys_exit, raise, logging,
    emit, os_path_exists, try_except, get_credentials, is_class, mbind, M_bind, mret, M_ret,
    set_credentials, set_use_keyring, set_path in *;
  simpl in *.

(** X2: without [--version] and without a cookies file, a [CredentialsError]
    of [get_credentials] is logged and ends the process with status 1: no
    request is sent and no course is started.  The keyring is asked for
    only if [--keyring] came without a password and the module is there. *)
Theorem unresolved_credentials_exit (E : environment) (ns : namespace) (w : world)
    (e : exn) :
  version ns = false →
  truthy_str (cookies_file ns) = false →
  credentials_reply E (trace w ++ keyring_warnings E ns) (username ns) (password ns)
    (netrc ns) (keyring_in_use E ns) = Raise e →
  exn_class e = CredentialsError →
  let w' := World (trace w ++ keyring_warnings E ns
                     ++ [ECredentials; ELog "error" (exn_msg e)]) (files w) (dirs w) in
  parse_args E ns w = (Raise (Exn (SystemExit 1) ""), w')
  ∧ main E ns w = (Raise (Exn (SystemExit 1) ""), w')
  ∧ exit_status (main E ns w).1 = 1
  ∧ requests (trace w') = requests (trace w)
  ∧ auths (trace w') = auths (trace w).
Proof.
  intros Hversion Hcookies Hreply Hclass w'.
  assert (Hparse : parse_args E ns w = (Raise (Exn (SystemExit 1) ""), w')).
  { unfold w'. destruct ns as [cn un pw pa cf nr uk cc sd db ve lp].
    run_parse_args. subst ve.
    destruct uk, (truthy_str pw), (keyring E); simpl in *;
      rewrite ?Hcookies; simpl; rewrite ?app_nil_r in Hreply; rewrite Hreply, Hclass; simpl;
      rewrite <- ?app_assoc; reflexivity. }
  assert (Hmain : main E ns w = (Raise (Exn (SystemExit 1) ""), w')).
  { unfold main. by rewrite (bind_raise _ _ _ _ _ Hparse). }
  split_and!; try done.
  - by rewrite Hmain.
  - unfold w'. simpl. rewrite !requests_app, requests_keyring_warnings. project_trace.
  - unfold w', keyring_warnings. repeat case_match; project_trace.
Qed.

Lemma unresolved_credentials_exit_witness :
  let E := Demo.env false in
  let ns := Namespace ["demo-101"] None None "out" None NetrcOff
              false false false false false None in
  let e := Exn CredentialsError "Please provide a username" in
  let w' := World (trace Demo.w0 ++ keyring_warnings E ns
                     ++ [ECredentials; ELog "error" (exn_msg e)])
              (files Demo.w0) (dirs Demo.w0) in
  parse_args E ns Demo.w0 = (Raise (Exn (SystemExit 1) ""), w')
  ∧ main E ns Demo.w0 = (Raise (Exn (SystemExit 1) ""), w')
  ∧ exit_status (main E ns Demo.w0).1 = 1
  ∧ requests (trace w') = requests (trace Demo.w0)
  ∧ auths (trace w') = auths (trace Demo.w0).
Proof.
  apply (unresolved_credentials_exit (Demo.env false)
           (Namespace ["demo-101"] None None "out" None NetrcOff
              false false false false false None)
           Demo.w0 (Exn CredentialsError "Please provide a username")).
  - reflexivity.
  - reflexivity.
  - reflexivity.
  - reflexivity.
Defined.

(** X3: with a cookies file that exists (and no [--version]), [parse_args]
    returns without asking for credentials: user name and password stay as
    given on the command line, the path is decoded, and the keyring flag is
    checked as always. *)
Theorem existing_cookies_file_skips_credentials (E : environment) (ns : namespace)
    (w : world) (p : string) :
  version ns = false →
  cookies_file ns = Some p →
  p ≠ "" →
  path_exists p w = true →
  let args := set_use_keyring (keyring_in_use E ns) (set_path (decode_input E (path ns)) ns) in
  let w' := World (trace w ++ keyring_warnings E ns) (files w) (dirs w) in
  parse_args E ns w = (Ok args, w')
  ∧ username args = username ns
  ∧ password args = password ns
  ∧ credential_calls (trace w') = credential_calls (trace w).
Proof.
  intros Hversion Hcookies Hp Hfound args w'.
  split_and!; try done.
  - unfold args, w'. destruct ns as [cn un pw pa cf nr uk cc sd db ve lp].
    run_parse_args. subst ve cf. simpl.
    destruct uk, (truthy_str pw), (keyring E); simpl;
      rewrite ?(bool_decide_eq_false_2 _ Hp); simpl;
      change (path_exists p _) with (path_exists p w); rewrite Hfound; simpl;
      rewrite ?app_nil_r; try reflexivity; by destruct w.
  - unfold w', keyring_warnings. repeat case_match; project_trace.
Qed.

Lemma existing_cookies_file_skips_credentials_witness :
  let E := Demo.env false in
  let ns := Namespace ["demo-101"] None None "out" (Some "cookies.txt") NetrcOff
              true false false false false None in
  let w := World [] {["cookies.txt" := "# Netscape HTTP Cookie File"]} ∅ in
  let args := set_use_keyring (keyring_in_use E ns) (set_path (decode_input E (path ns)) ns) in
  let w' := World (trace w ++ keyring_warnings E ns) (files w) (dirs w) in
  parse_args E ns w = (Ok args, w')
  ∧ username args = username ns
  ∧ password args = password ns
  ∧ credential_calls (trace w') = credential_calls (trace w).
Proof.
  apply (existing_cookies_file_skips_credentials (Demo.env false)
           (Namespace ["demo-101"] None None "out" (Some "cookies.txt") NetrcOff
              true false false false false None)
           (World [] {["cookies.txt" := "# Netscape HTTP Cookie File"]} ∅) "cookies.txt").
  - reflexivity.
  - reflexivity.
  - discriminate.
  - vm_compute. reflexivity.
Defined.

(** X4: without a cookies file (and no [--version]), the user name and the
    password that [get_credentials] returns replace those of the command
    line in the result of [parse_args]; every other option is kept, with
    the path decoded and the keyring flag checked. *)
Theorem resolved_credentials_are_returned (E : environment) (ns : namespace) (w : world)
    (u p : string) :
  version ns = false →
  truthy_str (cookies_file ns) = false →
  credentials_reply E (trace w ++ keyring_warnings E ns) (username ns) (password ns)
    (netrc ns) (keyring_in_use E ns) = Ok (u, p) →
  let args := set_credentials u p
                (set_use_keyring (keyring_in_use E ns)
                   (set_path (decode_input E (path ns)) ns)) in
  let w' := World (trace w ++ keyring_warnings E ns ++ [ECredentials]) (files w) (dirs w) in
  parse_args E ns w = (Ok args, w')
  ∧ username args = Some u
  ∧ password args = Some p
  ∧ class_names args = class_names ns
  ∧ cookies_file args = cookies_file ns
  ∧ clear_cache args = clear_cache ns.
Proof.
  intros Hversion Hcookies Hreply args w'.
  split_and!; try done.
  unfold args, w'. destruct ns as [cn un pw pa cf nr uk cc sd db ve lp].
  run_parse_args. subst ve.
  destruct uk, (truthy_str pw), (keyring E); simpl in *;
    rewrite ?Hcookies; simpl; rewrite ?app_nil_r in Hreply; rewrite Hreply; simpl;
    rewrite <- ?app_assoc; reflexivity.
Qed.

Lemma resolved_credentials_are_returned_witness :
  let E := Demo.env false in
  let ns := Demo.ns ["demo-101"] in
  let args := set_credentials "user" "secret"
                (set_use_keyring (keyring_in_use E ns)
                   (set_path (decode_input E (path ns)) ns)) in
  let w' := World (trace Demo.w0 ++ keyring_warnings E ns ++ [ECredentials])
              (files Demo.w0) (dirs Demo.w0) in
  parse_args E ns Demo.w0 = (Ok args, w')
  ∧ username args = Some "user"
  ∧ password args = Some "secret"
  ∧ class_names args = class_names ns
  ∧ cookies_file args = cookies_file ns
  ∧ clear_cache args = clear_cache ns.
Proof.
  apply (resolved_credentials_are_returned (Demo.env false) (Demo.ns ["demo-101"])
           Demo.w0 "user" "secret").
  - reflexivity.
  - reflexivity.
  - reflexivity.
Defined.

(** ** URLs and paths *)

Lemma get_api_post_url_value (E : environment) (class_name : string) (i : Z) (w : world) :
  (get_api_post_url E class_name i w).1 = Ok (post_url E class_name i).
Proof. reflexivity. Qed.

Lemma get_api_threads_url_value (E : environment) (class_name : string) (w : world) :
  (get_api_threads_url E class_name w).1 = Ok (index_url E class_name).
Proof. reflexivity. Qed.

(** X5: within a course, the URL built for a thread determines its id, and
    no thread URL is the URL of the index. *)
Theorem thread_urls_are_distinct (E : environment) (class_name : string) (i j : Z)
    (w w' : world) :
  ((get_api_post_url E class_name i w).1 = (get_api_post_url E class_name j w').1 ↔ i = j)
  ∧ (get_api_post_url E class_name i w).1 ≠ (get_api_threads_url E class_name w').1.
Proof.
  rewrite !get_api_post_url_value, get_api_threads_url_value.
  unfold post_url, index_url. split; [split |].
  - intros H. injection H as H.
    apply (inj (String.app (CLASS_URL E class_name))) in H.
    apply (inj (String.app "/api/forum/threads/")) in H.
    apply string_app_inj_r in H. by apply str_inj.
  - by intros ->.
  - intros H. injection H as H.
    apply (inj (String.app (CLASS_URL E class_name))) in H.
    discriminate H.
Qed.

Lemma string_app_ne_nil (a b : string) : b ≠ "" → a +:+ b ≠ "".
Proof.
  intros Hb Hab. apply (f_equal String.length) in Hab.
  rewrite string_length_app in Hab. destruct b; [done |]. simpl in Hab. lia.
Qed.

Lemma ends_with_sep_app (a b : string) :
  b ≠ "" → ends_with_sep (a +:+ b) = ends_with_sep b.
Proof.
  intros Hb. induction a as [|x a IH]; [done |].
  rewrite string_app_cons. simpl. rewrite IH.
  destruct (a +:+ b) eqn:Hab; [| done].
  by destruct (string_app_ne_nil a b Hb).
Qed.

(** X6: for a class name that is not empty, does not start with [/] and
    does not end with [/], the file of thread [i] is
    [<path>/<class_name>/forums/<i>.json], where the separator after the
    path is left out when the path is empty or ends with one. *)
Theorem thread_file_layout (args : namespace) (class_name : string) (i : Z) :
  class_name ≠ "" →
  String.prefix "/" class_name = false →
  ends_with_sep class_name = false →
  let root := if bool_decide (path args = "") || ends_with_sep (path args)
              then path args else path args +:+ "/" in
  forums_dir_of args class_name = root +:+ class_name +:+ "/forums"
  ∧ thread_file (forums_dir_of args class_name) i
    = root +:+ class_name +:+ "/forums/" +:+ str i +:+ ".json".
Proof.
  intros Hne Hprefix Hsep root.
  assert (Hdir : forums_dir_of args class_name = root +:+ class_name +:+ "/forums").
  { unfold forums_dir_of, path_join. simpl.
    assert (Hfirst : path_join2 (path args) class_name = root +:+ class_name).
    { unfold path_join2, root. rewrite Hprefix.
      destruct (bool_decide (path args = "") || ends_with_sep (path args)); [done |].
      by rewrite string_app_assoc. }
    rewrite Hfirst. unfold path_join2. simpl.
    rewrite (ends_with_sep_app root class_name Hne), Hsep.
    rewrite bool_decide_eq_false_2.
    - by rewrite !string_app_assoc.
    - by apply string_app_ne_nil. }
  split; [exact Hdir |].
  unfold thread_file. rewrite Hdir. by rewrite !string_app_assoc.
Qed.

Lemma thread_file_layout_witness :
  let args := Demo.ns ["demo-101"] in
  let root := if bool_decide (path args = "") || ends_with_sep (path args)
              then path args else path args +:+ "/" in
  forums_dir_of args "demo-101" = root +:+ "demo-101" +:+ "/forums"
  ∧ thread_file (forums_dir_of args "demo-101") 7
    = root +:+ "demo-101" +:+ "/forums/" +:+ str 7 +:+ ".json".
Proof.
  apply (thread_file_layout (Demo.ns ["demo-101"]) "demo-101" 7).
  - discriminate.
  - reflexivity.
  - reflexivity.
Defined.

(** X7: a class name that starts with [/] makes [os.path.join] drop the
    output path: the archive of the course is the same wherever [--path]
    points. *)
Theorem absolute_class_name_drops_path (args args' : namespace) (class_name : string) :
  String.prefix "/" class_name = true →
  forums_dir_of args class_name = forums_dir_of args' class_name
  ∧ forums_dir_of args class_name = path_join2 class_name "forums".
Proof.
  intros Hprefix. unfold forums_dir_of, path_join. simpl.
  assert (Hfirst : ∀ root, path_join2 root class_name = class_name).
  { intros root. unfold path_join2. by rewrite Hprefix. }
  by rewrite !Hfirst.
Qed.

Lemma absolute_class_name_drops_path_witness :
  forums_dir_of (Demo.ns []) "/srv/x" = forums_dir_of (set_path "elsewhere" (Demo.ns [])) "/srv/x"
  ∧ forums_dir_of (Demo.ns []) "/srv/x" = path_join2 "/srv/x" "forums".
Proof.
  apply (absolute_class_name_drops_path (Demo.ns []) (set_path "elsewhere" (Demo.ns []))
           "/srv/x").
  reflexivity.
Defined.

(** ** The loop over the thread ids, as a whole *)

Section Loop.

Variable E : environment.
Variables class_name forums_dir : string.

Local Abbreviation turn := (download_thread E class_name forums_dir).

(** However a turn ends, it has sent the request for its thread and no
    other, asked for no cookies and made no directory. *)
Lemma download_thread_projections (i : Z) (w w' : world) (r : result unit) :
  turn i w = (r, w') →
  requests (trace w') = (requests (trace w) ++ [post_url E class_name i])%list
  ∧ auths (trace w') = auths (trace w)
  ∧ mkdirs (trace w') = mkdirs (trace w).
Proof.
  rewrite download_thread_unfold.
  unfold write_file, requested, after, post_url_logged.
  intros Hrun. repeat (case_match; simplify_eq/=); split_and!; project_trace.
Qed.

Lemma for_each_projections (l : list Z) (w w' : world) (r : result unit) :
  for_each l turn w = (r, w') →
  auths (trace w') = auths (trace w) ∧ mkdirs (trace w') = mkdirs (trace w).
Proof.
  revert w. induction l as [|i l IH]; intros w Hrun; simpl in Hrun.
  - by inversion Hrun.
  - unfold mbind, M_bind in Hrun.
    destruct (turn i w) as [[[]|e] w1] eqn:Hturn.
    + destruct (download_thread_projections _ _ _ _ Hturn) as (_ & Ha & Hm).
      destruct (IH _ Hrun) as [-> ->]. done.
    + inversion Hrun; subst.
      by destruct (download_thread_projections _ _ _ _ Hturn) as (_ & Ha & Hm).
Qed.

(** The requests of the loop are those of a prefix of its ids, in order;
    of all of them when the loop ends normally. *)
Lemma for_each_requests (l : list Z) (w w' : world) (r : result unit) :
  for_each l turn w = (r, w') →
  ∃ sent, sent `prefix_of` l
    ∧ requests (trace w') = (requests (trace w) ++ (post_url E class_name <$> sent))%list
    ∧ (∀ u, r = Ok u → sent = l).
Proof.
  revert w. induction l as [|i l IH]; intros w Hrun; simpl in Hrun.
  - inversion Hrun; subst. exists []. split_and!; [done | by rewrite app_nil_r | done].
  - unfold mbind, M_bind in Hrun.
    destruct (turn i w) as [[[]|e] w1] eqn:Hturn.
    + destruct (download_thread_projections _ _ _ _ Hturn) as (Hreq & _ & _).
      destruct (IH _ Hrun) as (sent & Hpre & Hsent & Hall).
      exists (i :: sent). split_and!.
      * by apply prefix_cons.
      * rewrite Hsent, Hreq. simpl. by rewrite <- app_assoc.
      * intros u Hu. f_equal. by eapply Hall.
    + inversion Hrun; subst.
      destruct (download_thread_projections _ _ _ _ Hturn) as (Hreq & _ & _).
      exists [i]. split_and!.
      * apply prefix_cons, prefix_nil.
      * done.
      * done.
Qed.

(** A path that is the file of none of the ids is left alone. *)
Lemma for_each_frame_others (l : list Z) (p : string) (w w' : world) (r : result unit) :
  (∀ i, i ∈ l → p ≠ thread_file forums_dir i) →
  for_each l turn w = (r, w') →
  files w' !! p = files w !! p.
Proof.
  revert w. induction l as [|i l IH]; intros w Hp Hrun; simpl in Hrun.
  - by inversion Hrun.
  - unfold mbind, M_bind in Hrun.
    destruct (turn i w) as [[[]|e] w1] eqn:Hturn.
    + rewrite (IH w1); [| intros j Hj; apply Hp; by right | done].
      eapply download_thread_frame; [exact Hturn |]. apply Hp. by left.
    + inversion Hrun; subst.
      eapply download_thread_frame; [exact Hturn |]. apply Hp. by left.
Qed.

End Loop.

(** ** A course, from the cookies to the last thread *)

Section Whole.

Variable E : environment.
Variable args : namespace.
Variable class_name : string.

Local Abbreviation d := (forums_dir_of args class_name).

Lemma thread_count_inv (w w1 : world) (n : Z) :
  thread_count E args class_name w = (Ok n, w1) →
  ∃ text threads,
    fetch_index E args class_name w = (Ok text, w1)
    ∧ json_loads E text = Ok threads
    ∧ threads_num_of threads = Ok n.
Proof.
  unfold thread_count, of_result, mbind, M_bind.
  destruct (fetch_index E args class_name w) as [[text|e] w0]; [| done].
  destruct (json_loads E text) as [threads|e] eqn:Hloads; [| done].
  intros Hrun. inversion Hrun; subst. by exists text, threads.
Qed.

(** Up to the thread count nothing is written, and the cookies of the
    course are asked for once, whatever happens after that. *)
Lemma thread_count_frame (w w1 : world) (r : result Z) :
  thread_count E args class_name w = (r, w1) →
  files w1 = files w
  ∧ auths (trace w1) = (auths (trace w) ++ [class_name])%list.
Proof.
  unfold thread_count, fetch_index, open_archive, get_cookies_for_class, os_path_exists,
    when, mkdir_p, get_api_threads_url, logging, emit, get_page, of_result,
    mbind, M_bind, mret, M_ret.
  intros Hrun. simpl in Hrun.
  repeat (case_match; simplify_eq/=); split_and!; project_trace.
Qed.

(** X8: whatever the server answers and however the run of a course ends,
    [download_forums] changes no file outside the cache directory (where
    [get_cookies_for_class] keeps its cookies) other than the thread files
    [<forums_dir>/<i>.json] with [i ≥ 1] of that course. *)
Theorem download_forums_writes_only_thread_files (w w' : world) (r : result Z)
    (p : string) :
  download_forums E args class_name w = (r, w') →
  under (PATH_CACHE E) p = false →
  (∀ i, 1 ≤ i → p ≠ thread_file d i) →
  files w' !! p = files w !! p.
Proof.
  rewrite download_forums_points. unfold mbind, M_bind, mret, M_ret.
  intros Hrun _ Hp.
  destruct (thread_count E args class_name w) as [[n|e] w1] eqn:Hcount.
  - destruct (thread_count_frame _ _ _ Hcount) as [Hfiles _].
    destruct (download_threads E class_name d n w1) as [[[]|e] w2] eqn:Hloop;
      inversion Hrun; subst; rewrite <- Hfiles;
      (eapply for_each_frame_others; [| exact Hloop]);
      intros i Hi; apply Hp; apply elem_of_range in Hi; lia.
  - inversion Hrun; subst.
    by destruct (thread_count_frame _ _ _ Hcount) as [-> _].
Qed.

(** X9: once the index has given the count [n], the requests of the course
    are the one for the index followed by those for the threads
    [1, 2, ...] in ascending order, one each, up to the thread at which the
    run stopped: up to [n] when [download_forums] returns. *)
Theorem course_requests_in_order (w w1 w' : world) (n : Z) (r : result Z) :
  thread_count E args class_name w = (Ok n, w1) →
  download_forums E args class_name w = (r, w') →
  ∃ sent, sent `prefix_of` range 1 (n + 1)
    ∧ requests (trace w')
      = (requests (trace w)
           ++ index_url E class_name :: (post_url E class_name <$> sent))%list
    ∧ (∀ z, r = Ok z → sent = range 1 (n + 1)).
Proof.
  intros Hcount. rewrite download_forums_points, (bind_ok _ _ _ _ _ Hcount).
  unfold mbind, M_bind, mret, M_ret. intros Hrun.
  destruct (thread_count_inv _ _ _ Hcount) as (text & threads & Hindex & _ & _).
  destruct (fetch_index_inv _ _ _ _ _ _ Hindex) as (_ & Hreq & _).
  destruct (download_threads E class_name d n w1) as [[[]|e] w2] eqn:Hloop;
    inversion Hrun; subst;
    destruct (for_each_requests _ _ _ _ _ _ _ Hloop) as (sent & Hpre & Hsent & Hall);
    exists sent; split_and!; try done.
  - rewrite Hsent, Hreq. by rewrite <- app_assoc.
  - intros z _. by eapply Hall.
  - rewrite Hsent, Hreq. by rewrite <- app_assoc.
Qed.

End Whole.

Lemma download_forums_writes_only_thread_files_witness :
  let w := World [] {["out/demo-101/notes.txt" := "mine"]} ∅ in
  let r := download_forums (Demo.env false) (Demo.ns ["demo-101"]) "demo-101" w in
  files r.2 !! "out/demo-101/notes.txt" = files w !! "out/demo-101/notes.txt".
Proof.
  apply (download_forums_writes_only_thread_files (Demo.env false) (Demo.ns ["demo-101"])
           "demo-101" (World [] {["out/demo-101/notes.txt" := "mine"]} ∅)
           (download_forums (Demo.env false) (Demo.ns ["demo-101"]) "demo-101"
              (World [] {["out/demo-101/notes.txt" := "mine"]} ∅)).2
           (download_forums (Demo.env false) (Demo.ns ["demo-101"]) "demo-101"
              (World [] {["out/demo-101/notes.txt" := "mine"]} ∅)).1
           "out/demo-101/notes.txt").
  - vm_compute. reflexivity.
  - vm_compute. reflexivity.
  - intros i _. vm_compute. discriminate.
Defined.

Lemma course_requests_in_order_witness :
  let E := Demo.env false in
  let args := Demo.ns ["demo-101"] in
  let r := download_forums E args "demo-101" Demo.w0 in
  ∃ sent, sent `prefix_of` range 1 (3 + 1)
    ∧ requests (trace r.2)
      = (requests (trace Demo.w0)
           ++ index_url E "demo-101" :: (post_url E "demo-101" <$> sent))%list
    ∧ (∀ z, r.1 = Ok z → sent = range 1 (3 + 1)).
Proof.
  apply (course_requests_in_order (Demo.env false) (Demo.ns ["demo-101"]) "demo-101"
           Demo.w0
           (thread_count (Demo.env false) (Demo.ns ["demo-101"]) "demo-101" Demo.w0).2
           (download_forums (Demo.env false) (Demo.ns ["demo-101"]) "demo-101" Demo.w0).2
           3
           (download_forums (Demo.env false) (Demo.ns ["demo-101"]) "demo-101" Demo.w0).1).
  - vm_compute. reflexivity.
  - vm_compute. reflexivity.
Defined.

(** ** The loop against a server that answers the same every time *)

Section Stable.

Variable E : environment.
Variables class_name forums_dir : string.
Variable reply : Z → result string.

Local Abbreviation turn := (download_thread E class_name forums_dir).

Local Abbreviation well_behaved := (well_behaved E class_name forums_dir reply).

Lemma well_behaved_tail (i : Z) (l : list Z) : well_behaved (i :: l) → well_behaved l.
Proof.
  intros (H1 & H2 & H3 & H4). split_and!; intros; [apply H1 | eapply H2 | apply H3 | apply H4];
    try done; by right.
Qed.

Lemma for_each_stored (l : list Z) (w : world) :
  well_behaved l →
  ∃ w', for_each l turn w = (Ok tt, w')
        ∧ files w' = stored forums_dir reply l (files w)
        ∧ dirs w' = dirs w.
Proof.
  revert w. induction l as [|i l IH]; intros w Hwb.
  - by exists w.
  - pose proof Hwb as (H1 & H2 & H3 & H4).
    assert (Hi : i ∈ i :: l) by by left.
    assert (Hfetch : (fetch_post E class_name i w).1 = reply i).
    { rewrite fetch_post_unfold. apply H1, Hi. }
    assert (Hturn : ∃ w1, turn i w = (Ok tt, w1)
              ∧ files w1 = match reply i with
                           | Ok post => <[thread_file forums_dir i := post]> (files w)
                           | Raise _ => files w
                           end
              ∧ dirs w1 = dirs w).
    { destruct (reply i) as [post|e] eqn:Hreply.
      - rewrite (download_thread_write _ _ _ _ _ _ Hfetch).
        unfold write_file. rewrite (H3 _ _ Hi), (H4 _ _ _ Hi). by eexists.
      - rewrite (download_thread_skip _ _ _ _ _ _ Hfetch (H2 _ _ Hi Hreply)).
        by eexists. }
    destruct Hturn as (w1 & Hturn & Hfiles & Hdirs).
    destruct (IH w1 (well_behaved_tail _ _ Hwb)) as (w' & Hloop & Hfiles' & Hdirs').
    exists w'. split_and!.
    + simpl. by rewrite (bind_ok _ _ _ _ _ Hturn).
    + rewrite Hfiles', Hfiles. done.
    + by rewrite Hdirs', Hdirs.
Qed.

(** *** What [stored] holds *)

Lemma stored_answered (l : list Z) (fs : gmap string string) (i : Z) (post : string) :
  i ∈ l → reply i = Ok post →
  stored forums_dir reply l fs !! thread_file forums_dir i = Some post.
Proof.
  revert fs. induction l as [|j l IH] using rev_ind; intros fs Hin Hreply.
  - by apply elem_of_nil in Hin.
  - unfold stored. rewrite foldl_snoc. fold (stored forums_dir reply l fs).
    destruct (decide (j = i)) as [->|Hne].
    + rewrite Hreply. apply lookup_insert_eq.
    + apply elem_of_app in Hin as [Hin|Hin]; [| apply list_elem_of_singleton in Hin; done].
      destruct (reply j).
      * rewrite lookup_insert_ne; [by apply IH |].
        intros Heq. by apply thread_file_inj in Heq.
      * by apply IH.
Qed.

Lemma stored_other (l : list Z) (fs : gmap string string) (p : string) :
  (∀ i post, i ∈ l → reply i = Ok post → p ≠ thread_file forums_dir i) →
  stored forums_dir reply l fs !! p = fs !! p.
Proof.
  revert fs. induction l as [|j l IH]; intros fs Hp; [done |].
  simpl. fold (stored forums_dir reply l).
  rewrite IH; [| intros i post Hi; apply Hp; by right].
  destruct (reply j) as [post|e] eqn:Hreply; [| done].
  rewrite lookup_insert_ne; [done |].
  intros Heq. by eapply (Hp j post); [by left | |].
Qed.

(** Every path is the file of an answered thread of [l] or of none. *)
Lemma stored_cases (l : list Z) (p : string) :
  (∃ i post, i ∈ l ∧ reply i = Ok post ∧ p = thread_file forums_dir i)
  ∨ (∀ i post, i ∈ l → reply i = Ok post → p ≠ thread_file forums_dir i).
Proof.
  induction l as [|j l [(i & post & Hi & Hreply & Hp) | Hnone]].
  - right. intros i post Hi. by apply elem_of_nil in Hi.
  - left. exists i, post. split_and!; [by right | done | done].
  - destruct (reply j) as [post|e] eqn:Hreply.
    + destruct (decide (p = thread_file forums_dir j)) as [Hp|Hp].
      * left. exists j, post. split_and!; [by left | done | done].
      * right. intros i post' Hi Hreply'.
        apply elem_of_cons in Hi as [->|Hi]; [done | by eapply Hnone].
    + right. intros i post' Hi Hreply'.
      apply elem_of_cons in Hi as [->|Hi]; [congruence | by eapply Hnone].
Qed.

Lemma stored_idempotent (l : list Z) (fs : gmap string string) :
  stored forums_dir reply l (stored forums_dir reply l fs) = stored forums_dir reply l fs.
Proof.
  apply map_eq. intros p.
  destruct (stored_cases l p) as [(i & post & Hi & Hreply & ->) | Hnone].
  - by rewrite !(stored_answered _ _ _ _ Hi Hreply).
  - by rewrite (stored_other _ _ _ Hnone).
Qed.

End Stable.

(** X10: against a server that answers each thread the same every time and
    refuses only with HTTP errors, and with thread files that can be
    written, the loop over [1 .. n] ends normally and leaves exactly this
    archive: the file of every answered thread holds its answer, the file
    of every refused thread is as it was before the run (so a file left
    there by an earlier run stays), and the directories are unchanged. *)
Theorem loop_stores_answered_threads (E : environment) (class_name forums_dir : string)
    (reply : Z → result string) (n : Z) (w : world) :
  well_behaved E class_name forums_dir reply (range 1 (n + 1)) →
  ∃ w', download_threads E class_name forums_dir n w = (Ok tt, w')
    ∧ files w' = stored forums_dir reply (range 1 (n + 1)) (files w)
    ∧ dirs w' = dirs w
    ∧ (∀ i post, 1 ≤ i ≤ n → reply i = Ok post →
         files w' !! thread_file forums_dir i = Some post)
    ∧ (∀ i e, 1 ≤ i ≤ n → reply i = Raise e →
         files w' !! thread_file forums_dir i = files w !! thread_file forums_dir i).
Proof.
  intros Hwb.
  destruct (for_each_stored _ _ _ _ _ w Hwb) as (w' & Hloop & Hfiles & Hdirs).
  exists w'. split_and!; try done.
  - intros i post Hi Hreply. rewrite Hfiles.
    apply stored_answered; [| done]. apply elem_of_range. lia.
  - intros i e Hi Hreply. rewrite Hfiles.
    apply stored_other. intros j post _ Hj Heq.
    apply thread_file_inj in Heq. congruence.
Qed.

(** The demonstration server is well behaved for the three threads of
    [demo-101]. *)
Lemma demo_well_behaved :
  well_behaved (Demo.env false) "demo-101" "out/demo-101/forums" (demo_reply "demo-101")
    (range 1 (3 + 1)).
Proof.
  assert (Hids : ∀ i, i ∈ range 1 (3 + 1) → i = 1 ∨ i = 2 ∨ i = 3).
  { intros i Hi. apply elem_of_range in Hi. lia. }
  split_and!.
  - intros t i _. reflexivity.
  - intros i e Hi Hreply.
    destruct (Hids i Hi) as [-> | [-> | ->]]; vm_compute in Hreply; by simplify_eq.
  - intros t i Hi. destruct (Hids i Hi) as [-> | [-> | ->]]; reflexivity.
  - intros t i post Hi. reflexivity.
Qed.

Lemma loop_stores_answered_threads_witness :
  let E := Demo.env false in
  let d := "out/demo-101/forums" in
  let reply := demo_reply "demo-101" in
  let w := World [] {["out/demo-101/forums/2.json" := "stale"]} ∅ in
  ∃ w', download_threads E "demo-101" d 3 w = (Ok tt, w')
    ∧ files w' = stored d reply (range 1 (3 + 1)) (files w)
    ∧ dirs w' = dirs w
    ∧ (∀ i post, 1 ≤ i ≤ 3 → reply i = Ok post → files w' !! thread_file d i = Some post)
    ∧ (∀ i e, 1 ≤ i ≤ 3 → reply i = Raise e →
         files w' !! thread_file d i = files w !! thread_file d i).
Proof.
  apply (loop_stores_answered_threads (Demo.env false) "demo-101" "out/demo-101/forums"
           (demo_reply "demo-101") 3
           (World [] {["out/demo-101/forums/2.json" := "stale"]} ∅)).
  exact demo_well_behaved.
Defined.

(** The archive of the witness: threads 1 and 3 are written, and the file
    an earlier run left for thread 2 is still there after the HTTP error. *)
Example demo_stale_file_stays :
  let w := World [] {["out/demo-101/forums/2.json" := "stale"]} ∅ in
  let r := download_threads (Demo.env false) "demo-101" "out/demo-101/forums" 3 w in
  r.1 = Ok tt
  ∧ files r.2 !! "out/demo-101/forums/1.json" = Some (Demo.post_body 1)
  ∧ files r.2 !! "out/demo-101/forums/2.json" = Some "stale"
  ∧ files r.2 !! "out/demo-101/forums/3.json" = Some (Demo.post_body 3).
Proof. vm_compute. done. Qed.

(** X11: against such a server, running the loop again over the archive a
    first run has left ends normally and gives the same archive: files are
    overwritten with what they hold, nothing is appended or lost. *)
Theorem rerun_leaves_archive_unchanged (E : environment) (class_name forums_dir : string)
    (reply : Z → result string) (n : Z) (w w1 w2 : world) (r : result unit) :
  well_behaved E class_name forums_dir reply (range 1 (n + 1)) →
  download_threads E class_name forums_dir n w = (Ok tt, w1) →
  download_threads E class_name forums_dir n w1 = (r, w2) →
  r = Ok tt ∧ files w2 = files w1 ∧ dirs w2 = dirs w1.
Proof.
  intros Hwb Hfirst Hsecond.
  destruct (for_each_stored _ _ _ _ _ w Hwb) as (w1' & Hloop1 & Hfiles1 & _).
  destruct (for_each_stored _ _ _ _ _ w1 Hwb) as (w2' & Hloop2 & Hfiles2 & Hdirs2).
  unfold download_threads in *.
  rewrite Hloop1 in Hfirst. rewrite Hloop2 in Hsecond.
  inversion Hfirst; inversion Hsecond; subst.
  split_and!; [done | | done].
  rewrite Hfiles2, Hfiles1. apply stored_idempotent.
Qed.

Lemma rerun_leaves_archive_unchanged_witness :
  let E := Demo.env false in
  let d := "out/demo-101/forums" in
  let w1 := (download_threads E "demo-101" d 3 Demo.w0).2 in
  let r := download_threads E "demo-101" d 3 w1 in
  r.1 = Ok tt ∧ files r.2 = files w1 ∧ dirs r.2 = dirs w1.
Proof.
  apply (rerun_leaves_archive_unchanged (Demo.env false) "demo-101" "out/demo-101/forums"
           (demo_reply "demo-101") 3 Demo.w0
           (download_threads (Demo.env false) "demo-101" "out/demo-101/forums" 3 Demo.w0).2
           (download_threads (Demo.env false) "demo-101" "out/demo-101/forums" 3
              (download_threads (Demo.env false) "demo-101" "out/demo-101/forums" 3
                 Demo.w0).2).2).
  - exact demo_well_behaved.
  - vm_compute. reflexivity.
  - vm_compute. reflexivity.
Defined.

(** ** Edge cases of the index *)

Section Index.

Variable E : environment.
Variable args : namespace.
Variable class_name : string.

Local Abbreviation d := (forums_dir_of args class_name).
Local Abbreviation nd := (normalize_path E (forums_dir_of args class_name)).

Lemma download_threads_nonpositive (n : Z) (w : world) :
  n ≤ 0 → download_threads E class_name d n w = (Ok tt, w).
Proof. intros Hn. unfold download_threads. by rewrite range_nil by lia. Qed.

(** X12: a thread count that is zero or negative makes the loop empty:
    [download_forums] returns right after the index request, in the world
    that request has left. *)
Theorem nonpositive_count_fetches_nothing (w w1 : world) (n : Z) :
  thread_count E args class_name w = (Ok n, w1) →
  n ≤ 0 →
  download_forums E args class_name w = (Ok 0, w1)
  ∧ requests (trace w1) = (requests (trace w) ++ [index_url E class_name])%list
  ∧ files w1 = files w.
Proof.
  intros Hcount Hn.
  destruct (thread_count_inv _ _ _ _ _ _ Hcount) as (text & threads & Hindex & _ & _).
  destruct (fetch_index_inv _ _ _ _ _ _ Hindex) as (Hfiles & Hreq & _).
  split_and!; try done.
  eapply download_forums_ok; [exact Hcount |]. by apply download_threads_nonpositive.
Qed.

(** What [threads_num_of] makes of a decoded index that is no object. *)
Lemma threads_num_of_no_object (threads : value) :
  (∀ dict, threads ≠ PDict dict) →
  threads_num_of threads = Ok 0
  ∨ ∃ e, threads_num_of threads = Raise e ∧ exn_class e = TypeError.
Proof.
  intros Hno. unfold threads_num_of.
  destruct threads as [|b|z|f|s|l|dict]; simpl;
    try (right; eexists; split; [reflexivity | reflexivity]).
  - destruct (substring_of _ s); [right | left]; [| done].
    eexists; split; reflexivity.
  - destruct (existsb _ l); [right | left]; [| done].
    eexists; split; reflexivity.
  - by destruct (Hno dict).
Qed.

(** X13: when the index decodes to something that is not a JSON object, no
    thread is requested: [download_forums] returns at once (an array or a
    string without the key) or raises a [TypeError], for which [main] has
    no clause. *)
Theorem index_that_is_no_object (w w1 : world) (text : string) (threads : value)
    (completed : list string) :
  fetch_index E args class_name w = (Ok text, w1) →
  json_loads E text = Ok threads →
  (∀ dict, threads ≠ PDict dict) →
  download_forums E args class_name w = (Ok 0, w1)
  ∨ ∃ e, download_forums E args class_name w = (Raise e, w1)
         ∧ exn_class e = TypeError
         ∧ main_handler E completed e = None.
Proof.
  intros Hindex Hloads Hno.
  pose proof (thread_count_after_index _ _ _ _ _ _ Hindex) as Hcount.
  rewrite Hloads in Hcount.
  destruct (threads_num_of_no_object threads Hno) as [H0 | (e & He & Hclass)].
  - left. rewrite H0 in Hcount.
    eapply download_forums_ok; [exact Hcount |]. by apply download_threads_nonpositive.
  - right. exists e. rewrite He in Hcount. split_and!; [| done |].
    + by apply download_forums_count_raise.
    + unfold main_handler, is_class. by rewrite Hclass.
Qed.

(** X14: an exception of the index request, an HTTP error included, is not
    skipped as in the loop: [download_forums] raises it, the index request
    being its only request, with no file written. *)
Theorem index_failure_is_raised (w w1 : world) (dir : string) (e : exn) :
  open_archive E args class_name w = (Ok dir, w1) →
  page_reply E (trace w1 ++ [index_url_logged E class_name]) (index_url E class_name)
  = Raise e →
  let w2 := after (EGet (index_url E class_name)) (after (index_url_logged E class_name) w1) in
  download_forums E args class_name w = (Raise e, w2)
  ∧ requests (trace w2) = (requests (trace w1) ++ [index_url E class_name])%list
  ∧ files w2 = files w1.
Proof.
  intros Harchive Hreply w2.
  pose proof (fetch_index_after_archive _ _ _ _ _ _ Harchive) as Hindex.
  rewrite Hreply in Hindex.
  split_and!; [| unfold w2, after, index_url_logged; project_trace | done].
  by apply download_forums_count_raise, thread_count_index_raise.
Qed.

(** X15: when [json.loads] rejects the body of the index, its exception
    leaves [download_forums] before any thread is requested; for the
    [ValueError] of an invalid document [main] has no clause, so the loop
    over the courses ends there. *)
Theorem undecodable_index_ends_batch (w w1 : world) (text : string) (e : exn)
    (completed rest : list string) :
  fetch_index E args class_name (announced class_name w) = (Ok text, w1) →
  json_loads E text = Raise e →
  exn_class e = ValueError →
  download_forums E args class_name (announced class_name w) = (Raise e, w1)
  ∧ main_handler E completed e = None
  ∧ download_classes E args (class_name :: rest) completed w = (Raise e, w1).
Proof.
  intros Hindex Hloads Hclass.
  pose proof (thread_count_after_index _ _ _ _ _ _ Hindex) as Hcount.
  rewrite Hloads in Hcount.
  pose proof (download_forums_count_raise _ _ _ _ _ _ Hcount) as Hrun.
  assert (Hnone : main_handler E completed e = None).
  { unfold main_handler, is_class. by rewrite Hclass. }
  split_and!; try done.
  apply download_classes_abort.
  by rewrite (download_class_turn_raise _ _ _ _ _ _ _ Hrun), Hnone.
Qed.

End Index.

Lemma nonpositive_count_fetches_nothing_witness :
  let E := Edge.env "cache" in
  let args := Demo.ns ["neg-1"] in
  let w1 := (thread_count E args "neg-1" Demo.w0).2 in
  download_forums E args "neg-1" Demo.w0 = (Ok 0, w1)
  ∧ requests (trace w1) = (requests (trace Demo.w0) ++ [index_url E "neg-1"])%list
  ∧ files w1 = files Demo.w0.
Proof.
  apply (nonpositive_count_fetches_nothing (Edge.env "cache") (Demo.ns ["neg-1"]) "neg-1"
           Demo.w0 (thread_count (Edge.env "cache") (Demo.ns ["neg-1"]) "neg-1" Demo.w0).2
           (-3)).
  - vm_compute. reflexivity.
  - lia.
Defined.

Lemma index_that_is_no_object_witness :
  let E := Edge.env "cache" in
  let args := Demo.ns ["list-1"] in
  let w1 := (fetch_index E args "list-1" Demo.w0).2 in
  download_forums E args "list-1" Demo.w0 = (Ok 0, w1)
  ∨ ∃ e, download_forums E args "list-1" Demo.w0 = (Raise e, w1)
         ∧ exn_class e = TypeError
         ∧ main_handler E [] e = None.
Proof.
  apply (index_that_is_no_object (Edge.env "cache") (Demo.ns ["list-1"]) "list-1"
           Demo.w0 (fetch_index (Edge.env "cache") (Demo.ns ["list-1"]) "list-1" Demo.w0).2
           Edge.index_array (PList [PStr "total_threads"]) []).
  - vm_compute. reflexivity.
  - vm_compute. reflexivity.
  - discriminate.
Defined.

(** The array of the witness holds the key as an element, so the test
    [in] is true and indexing the array raises. *)
Example demo_array_index :
  (download_forums (Edge.env "cache") (Demo.ns ["list-1"]) "list-1" Demo.w0).1
  = Raise (Exn TypeError "list indices must be integers").
Proof. vm_compute. reflexivity. Qed.

Lemma index_failure_is_raised_witness :
  let E := Demo.env false in
  let args := Demo.ns ["down-1"] in
  let e := Exn HTTPError "500 Server Error" in
  let w1 := (open_archive E args "down-1" Demo.w0).2 in
  let w2 := after (EGet (index_url E "down-1")) (after (index_url_logged E "down-1") w1) in
  download_forums E args "down-1" Demo.w0 = (Raise e, w2)
  ∧ requests (trace w2) = (requests (trace w1) ++ [index_url E "down-1"])%list
  ∧ files w2 = files w1.
Proof.
  apply (index_failure_is_raised (Demo.env false) (Demo.ns ["down-1"]) "down-1" Demo.w0
           (open_archive (Demo.env false) (Demo.ns ["down-1"]) "down-1" Demo.w0).2
           "out/down-1/forums" (Exn HTTPError "500 Server Error")).
  - vm_compute. reflexivity.
  - vm_compute. reflexivity.
Defined.

Lemma undecodable_index_ends_batch_witness :
  let E := Edge.env "cache" in
  let args := Demo.ns ["html-1"; "neg-1"] in
  let e := Exn ValueError "No JSON object could be decoded" in
  let w1 := (fetch_index E args "html-1" (announced "html-1" Demo.w0)).2 in
  download_forums E args "html-1" (announced "html-1" Demo.w0) = (Raise e, w1)
  ∧ main_handler E [] e = None
  ∧ download_classes E args ["html-1"; "neg-1"] [] Demo.w0 = (Raise e, w1).
Proof.
  apply (undecodable_index_ends_batch (Edge.env "cache") (Demo.ns ["html-1"; "neg-1"])
           "html-1" Demo.w0
           (fetch_index (Edge.env "cache") (Demo.ns ["html-1"; "neg-1"]) "html-1"
              (announced "html-1" Demo.w0)).2
           Edge.index_html (Exn ValueError "No JSON object could be decoded")
           [] ["neg-1"]).
  - vm_compute. reflexivity.
  - vm_compute. reflexivity.
  - reflexivity.
Defined.

(** ** The archive directory *)

Section Archive.

Variable E : environment.
Variable args : namespace.
Variable class_name : string.

Local Abbreviation d := (forums_dir_of args class_name).
Local Abbreviation nd := (normalize_path E (forums_dir_of args class_name)).

Lemma thread_count_existing_dir (w w1 : world) (r : result Z) :
  path_exists d w = true →
  thread_count E args class_name w = (r, w1) →
  mkdirs (trace w1) = mkdirs (trace w) ∧ dirs w1 = dirs w.
Proof.
  intros Hfound Hrun.
  unfold thread_count, fetch_index, open_archive, get_cookies_for_class, os_path_exists,
    when, mkdir_p, get_api_threads_url, logging, emit, get_page, of_result,
    mbind, M_bind, mret, M_ret in Hrun. simpl in Hrun.
  destruct (cookies_reply E _ _ _ _ _).
  - simplify_eq/=. split_and!; project_trace.
  - change (path_exists d _) with (path_exists d w) in Hrun.
    rewrite Hfound in Hrun. simpl in Hrun.
    repeat (case_match; simplify_eq/=); split_and!; project_trace.
Qed.

(** X16: when the archive directory of the course is already there,
    [download_forums] never calls [mkdir_p] and leaves the directories as
    they are, however the run ends. *)
Theorem existing_archive_dir_is_kept (w w' : world) (r : result Z) :
  path_exists d w = true →
  download_forums E args class_name w = (r, w') →
  mkdirs (trace w') = mkdirs (trace w) ∧ dirs w' = dirs w.
Proof.
  intros Hfound. rewrite download_forums_points. unfold mbind, M_bind, mret, M_ret.
  intros Hrun.
  destruct (thread_count E args class_name w) as [[n|e] w1] eqn:Hcount.
  - destruct (thread_count_existing_dir _ _ _ Hfound Hcount) as [Hm Hd].
    destruct (download_threads E class_name d n w1) as [[[]|e] w2] eqn:Hloop;
      inversion Hrun; subst;
      destruct (for_each_projections _ _ _ _ _ _ _ Hloop) as [_ ->];
      rewrite (for_each_dirs _ _ _ _ _ _ _ Hloop); done.
  - inversion Hrun; subst. exact (thread_count_existing_dir _ _ _ Hfound Hcount).
Qed.

(** X17: when the archive directory is missing and cannot be made, the
    exception of [mkdir_p] leaves [download_forums] before the index is
    requested; an [OSError] meets no clause of [main]. *)
Theorem archive_dir_failure_is_raised (w : world) (e : exn) (completed : list string) :
  cookies_reply E (trace w) class_name (cookies_file args) (username args) (password args)
  = None →
  path_exists d w = false →
  mkdir_fault E (trace w ++ [EAuth class_name]) nd = Some e →
  let w1 := World (trace w ++ [EAuth class_name; EMkdir nd]) (files w) (dirs w) in
  download_forums E args class_name w = (Raise e, w1)
  ∧ requests (trace w1) = requests (trace w)
  ∧ (exn_class e = OSError → main_handler E completed e = None).
Proof.
  intros Hauth Hfound Hfault w1. split_and!.
  - unfold download_forums, get_cookies_for_class, os_path_exists, when, mkdir_p,
      mbind, M_bind, mret, M_ret. simpl.
    rewrite Hauth. change (path_exists d _) with (path_exists d w). rewrite Hfound. simpl.
    rewrite Hfault. unfold w1. by rewrite <- app_assoc.
  - unfold w1. project_trace.
  - intros Hclass. unfold main_handler, is_class. by rewrite Hclass.
Qed.

End Archive.

Lemma existing_archive_dir_is_kept_witness :
  let w := World [] ∅ {["out/demo-101/forums"]} in
  let r := download_forums (Demo.env false) (Demo.ns ["demo-101"]) "demo-101" w in
  mkdirs (trace r.2) = mkdirs (trace w) ∧ dirs r.2 = dirs w.
Proof.
  apply (existing_archive_dir_is_kept (Demo.env false) (Demo.ns ["demo-101"]) "demo-101"
           (World [] ∅ {["out/demo-101/forums"]})
           (download_forums (Demo.env false) (Demo.ns ["demo-101"]) "demo-101"
              (World [] ∅ {["out/demo-101/forums"]})).2
           (download_forums (Demo.env false) (Demo.ns ["demo-101"]) "demo-101"
              (World [] ∅ {["out/demo-101/forums"]})).1).
  - vm_compute. reflexivity.
  - vm_compute. reflexivity.
Defined.

Lemma archive_dir_failure_is_raised_witness :
  let E := Edge.env "cache" in
  let args := set_path "full" (Demo.ns ["neg-1"]) in
  let e := Exn OSError "No space left on device" in
  let w1 := World (trace Demo.w0 ++ [EAuth "neg-1"; EMkdir "full/neg-1/forums"])
              (files Demo.w0) (dirs Demo.w0) in
  download_forums E args "neg-1" Demo.w0 = (Raise e, w1)
  ∧ requests (trace w1) = requests (trace Demo.w0)
  ∧ (exn_class e = OSError → main_handler E [] e = None).
Proof.
  apply (archive_dir_failure_is_raised (Edge.env "cache") (set_path "full" (Demo.ns ["neg-1"]))
           "neg-1" Demo.w0 (Exn OSError "No space left on device") []).
  - reflexivity.
  - vm_compute. reflexivity.
  - vm_compute. reflexivity.
Defined.

(** ** The batch *)

Section Batch.

Variable E : environment.
Variable args : namespace.

(** However the run of a course ends, its cookies have been asked for
    once, and those of no other course. *)
Lemma download_forums_auths (class_name : string) (w w' : world) (r : result Z) :
  download_forums E args class_name w = (r, w') →
  auths (trace w') = (auths (trace w) ++ [class_name])%list.
Proof.
  rewrite download_forums_points. unfold mbind, M_bind, mret, M_ret. intros Hrun.
  destruct (thread_count E args class_name w) as [[n|e] w1] eqn:Hcount.
  - destruct (thread_count_frame _ _ _ _ _ _ Hcount) as [_ Hauths].
    destruct (download_threads E class_name _ n w1) as [[[]|e] w2] eqn:Hloop;
      inversion Hrun; subst;
      by destruct (for_each_projections _ _ _ _ _ _ _ Hloop) as [-> _].
  - inversion Hrun; subst. by destruct (thread_count_frame _ _ _ _ _ _ Hcount).
Qed.

Lemma main_handler_auths (completed : list string) (e : exn) (h : M (list string))
    (w w' : world) (r : result (list string)) :
  main_handler E completed e = Some h → h w = (r, w') →
  auths (trace w') = auths (trace w).
Proof.
  unfold main_handler, logging, emit, debug_run, raise, mbind, M_bind, mret, M_ret.
  intros Hh Hrun.
  repeat (case_match; simplify_eq/=); project_trace.
Qed.

Lemma download_class_turn_auths (class_name : string) (completed : list string)
    (w w' : world) (r : result (list string)) :
  download_class_turn E args completed class_name w = (r, w') →
  auths (trace w') = (auths (trace w) ++ [class_name])%list.
Proof.
  destruct (download_forums E args class_name (announced class_name w))
    as [[z|e] w1] eqn:Hrun;
    pose proof (download_forums_auths _ _ _ _ Hrun) as Hauths;
    unfold announced, after in Hauths; simpl in Hauths;
    rewrite auths_app in Hauths; simpl in Hauths; rewrite app_nil_r in Hauths.
  - rewrite (download_class_turn_ok _ _ _ _ _ _ _ Hrun). intros Hturn.
    by inversion Hturn; subst.
  - rewrite (download_class_turn_raise _ _ _ _ _ _ _ Hrun).
    destruct (main_handler E completed e) as [h|] eqn:Hh.
    + intros Hturn. by rewrite (main_handler_auths _ _ _ _ _ _ Hh Hturn).
    + intros Hturn. by inversion Hturn; subst.
Qed.

(** X18: the courses are authenticated one after the other in the order of
    the command line, each once: when the loop of [main] returns, all of
    them; when it is ended by an exception, the courses up to the one that
    raised it. *)
Theorem courses_authenticate_in_order (l completed : list string) (w w' : world)
    (r : result (list string)) :
  download_classes E args l completed w = (r, w') →
  ∃ started, started `prefix_of` l
    ∧ auths (trace w') = (auths (trace w) ++ started)%list
    ∧ (∀ cs, r = Ok cs → started = l).
Proof.
  revert completed w. induction l as [|c l IH]; intros completed w Hrun; simpl in Hrun.
  - inversion Hrun; subst. exists []. by rewrite app_nil_r.
  - unfold mbind, M_bind in Hrun.
    destruct (download_class_turn E args completed c w) as [[cs1|e] w1] eqn:Hturn;
      pose proof (download_class_turn_auths _ _ _ _ _ Hturn) as Hauths.
    + destruct (IH _ _ Hrun) as (started & Hpre & Hstarted & Hall).
      exists (c :: started). split_and!.
      * by apply prefix_cons.
      * rewrite Hstarted, Hauths. by rewrite <- app_assoc.
      * intros cs Hcs. f_equal. by eapply Hall.
    + inversion Hrun; subst. exists [c]. split_and!; [| done | done].
      apply prefix_cons, prefix_nil.
Qed.

End Batch.

Lemma courses_authenticate_in_order_witness :
  let E := Demo.env false in
  let l := ["gone-1"; "down-1"; "demo-101"; "broken-1"; "empty-1"] in
  let r := download_classes E (Demo.ns l) l [] Demo.w0 in
  ∃ started, started `prefix_of` l
    ∧ auths (trace r.2) = (auths (trace Demo.w0) ++ started)%list
    ∧ (∀ cs, r.1 = Ok cs → started = l).
Proof.
  apply (courses_authenticate_in_order (Demo.env false)
           (Demo.ns ["gone-1"; "down-1"; "demo-101"; "broken-1"; "empty-1"])
           ["gone-1"; "down-1"; "demo-101"; "broken-1"; "empty-1"] [] Demo.w0
           (download_classes (Demo.env false)
              (Demo.ns ["gone-1"; "down-1"; "demo-101"; "broken-1"; "empty-1"])
              ["gone-1"; "down-1"; "demo-101"; "broken-1"; "empty-1"] [] Demo.w0).2
           (download_classes (Demo.env false)
              (Demo.ns ["gone-1"; "down-1"; "demo-101"; "broken-1"; "empty-1"])
              ["gone-1"; "down-1"; "demo-101"; "broken-1"; "empty-1"] [] Demo.w0).1).
  vm_compute. reflexivity.
Defined.

(** The batch of the witness: the bad count of [broken-1] ends it, and
    [empty-1] is never authenticated. *)
Example demo_batch_auths :
  let l := ["gone-1"; "down-1"; "demo-101"; "broken-1"; "empty-1"] in
  auths (trace (download_classes (Demo.env false) (Demo.ns l) l [] Demo.w0).2)
  = ["gone-1"; "down-1"; "demo-101"; "broken-1"].
Proof. vm_compute. reflexivity. Qed.

(** ** The cache directory *)

(** [main] is [parse_args], the version line, the cache directory and the
    loop over the courses. *)
Lemma main_points (E : environment) (ns : namespace) (w : world) :
  main E ns w
  = (args ← parse_args E ns ;
     logging "info" ("coursera_dl version " +:+ package_version E) ;;
     prepare_cache E args ;;
     run_courses E args) w.
Proof.
  unfold main, prepare_cache, run_courses, mbind, M_bind.
  destruct (parse_args E ns w) as [[args|e] w1]; [| done].
  unfold logging, emit. simpl.
  destruct (mkdir_p E (PATH_CACHE E) _) as [[[]|e] w2]; [| done].
  destruct (when (clear_cache args) (rmtree E (PATH_CACHE E)) w2) as [[[]|e] w3]; done.
Qed.

Lemma under_root (root : string) : under root root = true.
Proof. unfold under. by rewrite bool_decide_eq_true_2. Qed.

Section Cache.

Variable E : environment.
Variable ns args : namespace.
Variables w0 w1 : world.

Local Abbreviation cache := (PATH_CACHE E).
Local Abbreviation w :=
  (after (ELog "info" ("coursera_dl version " +:+ package_version E)) w1).

(** X19: under [--clear-cache], when the loop over the courses starts the
    cache directory has been made and removed again: it does not exist, no
    file or directory is left under it, every file outside it is as before
    the run, and no course has been authenticated yet. *)
Theorem cleared_cache_is_gone_before_first_course :
  parse_args E ns w0 = (Ok args, w1) →
  clear_cache args = true →
  mkdir_fault E (trace w) cache = None →
  rmtree_fault E (trace w ++ [EMkdir cache]) cache = None →
  ∃ w', main E ns w0 = run_courses E args w'
    ∧ path_exists cache w' = false
    ∧ (∀ p, under cache p = true → files w' !! p = None ∧ p ∉ dirs w')
    ∧ (∀ p, under cache p = false → files w' !! p = files w0 !! p)
    ∧ auths (trace w') = auths (trace w0).
Proof.
  intros Hparse Hclear Hmkdir Hrmtree.
  destruct (parse_args_frame _ _ _ _ _ Hparse) as (Hfiles & _ & _ & Hauths).
  set (w' := World (trace w ++ [EMkdir cache] ++ [ERmtree cache])
               (filter (λ kv, under cache kv.1 = false) (files w1))
               (filter (λ p, under cache p = false)
                  ({[cache]} ∪ list_to_set (ancestors cache) ∪ dirs w1))).
  assert (Hgone : ∀ p, under cache p = true → files w' !! p = None ∧ p ∉ dirs w').
  { intros p Hp. unfold w'. simpl. split.
    - apply map_lookup_filter_None. right. intros x _. simpl. congruence.
    - rewrite elem_of_filter. intros [Hp' _]. congruence. }
  exists w'. split_and!.
  - rewrite main_points. rewrite (bind_ok _ _ _ _ _ Hparse).
    unfold logging, emit, mbind, M_bind at 1. simpl.
    assert (Hcache : prepare_cache E args w = (Ok tt, w')).
    { unfold prepare_cache, when, mkdir_p, rmtree, mbind, M_bind. rewrite Hclear.
      change (mkdir_fault E _ _) with (mkdir_fault E (trace w) cache).
      rewrite Hmkdir.
      change (rmtree_fault E _ _) with (rmtree_fault E (trace w ++ [EMkdir cache]) cache).
      rewrite Hrmtree. unfold w'. simpl. by rewrite <- app_assoc. }
    by rewrite (bind_ok _ _ _ _ _ Hcache).
  - destruct (Hgone cache (under_root cache)) as [Hfile Hdir].
    unfold path_exists. rewrite Hfile.
    rewrite (bool_decide_eq_false_2 _ Hdir).
    rewrite bool_decide_eq_false_2; [done | by intros [? ?]].
  - exact Hgone.
  - intros p Hp. unfold w'. simpl. rewrite <- Hfiles.
    destruct (files w1 !! p) as [x|] eqn:Hlookup.
    + by apply map_lookup_filter_Some.
    + apply map_lookup_filter_None. by left.
  - unfold w'. simpl. unfold after. project_trace.
Qed.

(** X20: when the cache directory cannot be made, the exception of
    [mkdir_p] ends [main] before any course is started. *)
Theorem cache_dir_failure_ends_run (e : exn) :
  parse_args E ns w0 = (Ok args, w1) →
  mkdir_fault E (trace w) cache = Some e →
  let w' := after (EMkdir cache) w in
  main E ns w0 = (Raise e, w')
  ∧ auths (trace w') = auths (trace w0)
  ∧ requests (trace w') = requests (trace w0)
  ∧ files w' = files w0.
Proof.
  intros Hparse Hmkdir w'.
  destruct (parse_args_frame _ _ _ _ _ Hparse) as (Hfiles & _ & Hreq & Hauths).
  split_and!.
  - unfold main. rewrite (bind_ok _ _ _ _ _ Hparse).
    unfold logging, emit, mkdir_p, mbind, M_bind. simpl.
    change (mkdir_fault E _ _) with (mkdir_fault E (trace w) cache).
    by rewrite Hmkdir.
  - unfold w', after. project_trace.
  - unfold w', after. project_trace.
  - done.
Qed.

End Cache.

Lemma cleared_cache_is_gone_before_first_course_witness :
  let E := Edge.env "cache" in
  let ns := Namespace ["neg-1"] (Some "user") (Some "secret") "out" None NetrcOff
              false true false false false None in
  let w0 := World [] {["cache/neg-1.txt" := "cookies"; "out/keep.txt" := "kept"]}
              {["cache"]} in
  ∃ w', main E ns w0 = run_courses E ns w'
    ∧ path_exists (PATH_CACHE E) w' = false
    ∧ (∀ p, under (PATH_CACHE E) p = true → files w' !! p = None ∧ p ∉ dirs w')
    ∧ (∀ p, under (PATH_CACHE E) p = false → files w' !! p = files w0 !! p)
    ∧ auths (trace w') = auths (trace w0).
Proof.
  apply (cleared_cache_is_gone_before_first_course (Edge.env "cache")
           (Namespace ["neg-1"] (Some "user") (Some "secret") "out" None NetrcOff
              false true false false false None)
           (Namespace ["neg-1"] (Some "user") (Some "secret") "out" None NetrcOff
              false true false false false None)
           (World [] {["cache/neg-1.txt" := "cookies"; "out/keep.txt" := "kept"]} {["cache"]})
           (parse_args (Edge.env "cache")
              (Namespace ["neg-1"] (Some "user") (Some "secret") "out" None NetrcOff
                 false true false false false None)
              (World [] {["cache/neg-1.txt" := "cookies"; "out/keep.txt" := "kept"]}
                 {["cache"]})).2).
  - vm_compute. reflexivity.
  - reflexivity.
  - reflexivity.
  - reflexivity.
Defined.

(** The run of the witness: the cached cookies are gone, the other file is
    kept, and the course is authenticated after the cache is cleared. *)
Example demo_clear_cache :
  let ns := Namespace ["neg-1"] (Some "user") (Some "secret") "out" None NetrcOff
              false true false false false None in
  let w0 := World [] {["cache/neg-1.txt" := "cookies"; "out/keep.txt" := "kept"]}
              {["cache"]} in
  let r := main (Edge.env "cache") ns w0 in
  r.1 = Ok tt
  ∧ map_to_list (files r.2) = [("out/keep.txt", "kept")]
  ∧ path_exists "cache" r.2 = false
  ∧ take 5 (trace r.2)
    = [ECredentials; ELog "info" "coursera_dl version 0.1"; EMkdir "cache";
       ERmtree "cache"; ELog "info" "Downloading class: neg-1"].
Proof. vm_compute. done. Qed.

Lemma cache_dir_failure_ends_run_witness :
  let E := Edge.env "full/cache" in
  let ns := Demo.ns ["neg-1"] in
  let w1 := (parse_args E ns Demo.w0).2 in
  let w' := after (EMkdir (PATH_CACHE E))
              (after (ELog "info" ("coursera_dl version " +:+ package_version E)) w1) in
  main E ns Demo.w0 = (Raise (Exn OSError "No space left on device"), w')
  ∧ auths (trace w') = auths (trace Demo.w0)
  ∧ requests (trace w') = requests (trace Demo.w0)
  ∧ files w' = files Demo.w0.
Proof.
  apply (cache_dir_failure_ends_run (Edge.env "full/cache") (Demo.ns ["neg-1"])
           (Demo.ns ["neg-1"]) Demo.w0
           (parse_args (Edge.env "full/cache") (Demo.ns ["neg-1"]) Demo.w0).2
           (Exn OSError "No space left on device")).
  - vm_compute. reflexivity.
  - reflexivity.
Defined.

(** ** A batch in which every failure is caught *)

Section Survive.

Variable E : environment.
Variable args : namespace.

Hypothesis no_debug_run : ∀ t, is_debug_run E t = false.

Lemma caught_turn (class_name : string) (completed : list string) (w w1 : world)
    (e : exn) :
  download_forums E args class_name (announced class_name w) = (Raise e, w1) →
  exn_class e ∈ course_level →
  ∃ w2, download_class_turn E args completed class_name w = (Ok completed, w2).
Proof.
  intros Hrun Hclass.
  rewrite (download_class_turn_raise _ _ _ _ _ _ _ Hrun).
  unfold course_level in Hclass. rewrite !elem_of_cons, elem_of_nil in Hclass.
  unfold main_handler, is_class.
  destruct Hclass as [Hc|[Hc|[Hc|[Hc|[]]]]]; rewrite Hc; simpl; try by eexists.
  unfold logging, emit, debug_run, raise, mbind, M_bind, mret, M_ret. simpl.
  rewrite no_debug_run. by eexists.
Qed.

Lemma caught_batch (l completed : list string) (w : world) :
  (∀ c w e w', c ∈ l → download_forums E args c w = (Raise e, w') →
     exn_class e ∈ course_level) →
  ∃ w', download_classes E args l completed w = (Ok completed, w').
Proof.
  revert w. induction l as [|c l IH]; intros w Hcaught.
  - by exists w.
  - assert (Hturn : ∃ w1, download_class_turn E args completed c w = (Ok completed, w1)).
    { destruct (download_forums E args c (announced c w)) as [[z|e] w1] eqn:Hrun.
      - exists w1. rewrite (download_class_turn_ok _ _ _ _ _ _ _ Hrun).
        by rewrite (download_forums_returns_0 _ _ _ _ _ _ Hrun).
      - eapply caught_turn; [exact Hrun |]. eapply Hcaught; [by left | exact Hrun]. }
    destruct Hturn as (w1 & Hturn).
    destruct (IH w1) as (w' & Hrest).
    { intros c' w2 e w2' Hc'. apply Hcaught. by right. }
    exists w'. by rewrite (download_classes_cons _ _ _ _ _ _ _ Hturn).
Qed.

(** X21: outside a debug run, when every exception that leaves
    [download_forums] for a course of the command line is an [HTTPError],
    an [SSLError], a [ClassNotFound] or an [AuthenticationFailed], the loop
    of [main] over the courses returns normally, whichever courses fail:
    the process then ends with status 0. *)
Theorem batch_outlives_caught_failures (w : world) :
  (∀ c w e w', c ∈ class_names args → download_forums E args c w = (Raise e, w') →
     exn_class e ∈ course_level) →
  ∃ w', run_courses E args w = (Ok tt, w')
    ∧ exit_status (run_courses E args w).1 = 0.
Proof.
  intros Hcaught.
  destruct (caught_batch (class_names args) [] w Hcaught) as (w' & Hloop).
  assert (Hrun : run_courses E args w = (Ok tt, w')).
  { unfold run_courses. by rewrite (bind_ok _ _ _ _ _ Hloop). }
  exists w'. by rewrite Hrun.
Qed.

End Survive.

Lemma batch_outlives_caught_failures_witness :
  let E := Demo.env false in
  let args := Demo.ns ["gone-1"; "locked-1"] in
  ∃ w', run_courses E args Demo.w0 = (Ok tt, w')
    ∧ exit_status (run_courses E args Demo.w0).1 = 0.
Proof.
  apply (batch_outlives_caught_failures (Demo.env false) (Demo.ns ["gone-1"; "locked-1"])).
  - reflexivity.
  - intros c w e w' Hc Hrun.
    apply elem_of_cons in Hc as [-> | Hc]; [| apply list_elem_of_singleton in Hc; subst c].
    + rewrite (download_forums_auth_fails _ _ _ _ (Exn ClassNotFound "gone-1")) in Hrun
        by reflexivity.
      inversion Hrun. simpl. unfold course_level. rewrite !elem_of_cons. tauto.
    + rewrite (download_forums_auth_fails _ _ _ _ (Exn AuthenticationFailed "locked-1"))
        in Hrun by reflexivity.
      inversion Hrun. simpl. unfold course_level. rewrite !elem_of_cons. tauto.
Defined.

(** ** The exceptions of the thread count *)

Lemma contains_getitem (threads : value) :
  contains "total_threads" threads = Ok true →
  (∃ v, getitem threads "total_threads" = Ok v)
  ∨ (∃ e, getitem threads "total_threads" = Raise e ∧ exn_class e = TypeError).
Proof.
  destruct threads as [|b|z|f|s|l|dict]; simpl; try done.
  - intros _. right. by eexists.
  - intros _. right. by eexists.
  - intros Hin. left. injection Hin as Hin. apply bool_decide_eq_true_1 in Hin.
    destruct Hin as [v ->]. by exists v.
Qed.

(** X22: the test [in] covers the lookup, so computing the thread count
    never raises a [KeyError]: whatever the decoded index is, the count is
    an integer or the exception is a [TypeError], a [ValueError] or an
    [OverflowError], and [main] has a clause for none of them. *)
Theorem thread_count_exceptions (E : environment) (threads : value) (e : exn)
    (completed : list string) :
  threads_num_of threads = Raise e →
  exn_class e ∈ [ValueError; TypeError; OverflowError]
  ∧ exn_class e ≠ KeyError
  ∧ main_handler E completed e = None.
Proof.
  intros Hcount.
  assert (Hclass : exn_class e ∈ [ValueError; TypeError; OverflowError]).
  { unfold threads_num_of in Hcount.
    destruct (contains "total_threads" threads) as [[|]|e0] eqn:Hin.
    - destruct (contains_getitem _ Hin) as [[v Hv] | (e1 & He1 & Hc)]; rewrite ?Hv, ?He1 in Hcount.
      + by apply int_raise_class in Hcount.
      + simplify_eq. rewrite Hc, !elem_of_cons. tauto.
    - done.
    - simplify_eq. destruct threads; simplify_eq/=; rewrite !elem_of_cons; tauto. }
  rewrite !elem_of_cons, elem_of_nil in Hclass.
  split_and!.
  - rewrite !elem_of_cons. tauto.
  - destruct Hclass as [Hc|[Hc|[Hc|[]]]]; by rewrite Hc.
  - unfold main_handler, is_class.
    destruct Hclass as [Hc|[Hc|[Hc|[]]]]; by rewrite Hc.
Qed.

Lemma thread_count_exceptions_witness :
  let e := Exn TypeError "argument is not iterable" in
  exn_class e ∈ [ValueError; TypeError; OverflowError]
  ∧ exn_class e ≠ KeyError
  ∧ main_handler (Demo.env false) [] e = None.
Proof.
  apply (thread_count_exceptions (Demo.env false) PNone
           (Exn TypeError "argument is not iterable") []).
  reflexivity.
Defined.

(** ** The files of the ids after a failure *)

(** X23: when the loop over [1 .. n] has gone normally through the ids
    before [i] and the turn of [i] raises, the loop ends there with that
    exception, and the file of every later id is as it was before the
    loop. *)
Theorem aborted_loop_leaves_later_threads (E : environment)
    (class_name forums_dir : string) (n i : Z) (w0 wi wf : world) (e : exn) :
  1 ≤ i ≤ n →
  for_each (range 1 i) (download_thread E class_name forums_dir) w0 = (Ok tt, wi) →
  download_thread E class_name forums_dir i wi = (Raise e, wf) →
  download_threads E class_name forums_dir n w0 = (Raise e, wf)
  ∧ ∀ j, i < j →
      files wf !! thread_file forums_dir j = files w0 !! thread_file forums_dir j.
Proof.
  intros Hi Hbefore Hturn. split.
  - unfold download_threads.
    rewrite (range_app 1 i (n + 1)) by lia.
    rewrite for_each_app, (bind_ok _ _ _ _ _ Hbefore).
    rewrite (range_cons i (n + 1)) by lia. simpl.
    by rewrite (bind_raise _ _ _ _ _ Hturn).
  - intros j Hj.
    rewrite (download_thread_frame _ _ _ _ _ _ _ _ Hturn).
    + eapply for_each_frame; [| exact Hbefore]. rewrite elem_of_range. lia.
    + intros Heq. apply thread_file_inj in Heq. lia.
Qed.

Lemma aborted_loop_leaves_later_threads_witness :
  let E := Demo.env false in
  let w0 := World [] {["ro/demo-101/forums/3.json" := "old"]} ∅ in
  let wf := (download_thread E "demo-101" "ro/demo-101/forums" 1 w0).2 in
  download_threads E "demo-101" "ro/demo-101/forums" 3 w0
  = (Raise (Exn OSError "Read-only file system"), wf)
  ∧ ∀ j, 1 < j →
      files wf !! thread_file "ro/demo-101/forums" j
      = files w0 !! thread_file "ro/demo-101/forums" j.
Proof.
  apply (aborted_loop_leaves_later_threads (Demo.env false) "demo-101" "ro/demo-101/forums"
           3 1 (World [] {["ro/demo-101/forums/3.json" := "old"]} ∅)
           (World [] {["ro/demo-101/forums/3.json" := "old"]} ∅)).
  - lia.
  - reflexivity.
  - vm_compute. reflexivity.
Defined.

(** ** A count given as a string *)

Lemma rev_app_rev_app (s t u : string) :
  String.rev_app (String.rev_app s t) u = String.rev_app t (s +:+ u).
Proof.
  revert t u. induction s as [|a s IH]; intros t u; [done |].
  simpl. rewrite IH. by rewrite string_app_cons.
Qed.

Lemma string_app_nil_r (s : string) : s +:+ "" = s.
Proof.
  induction s as [|c s IH]; [done |].
  rewrite string_app_cons. by f_equal.
Qed.

Lemma string_rev_involutive (s : string) : String.rev (String.rev s) = s.
Proof. unfold String.rev. rewrite rev_app_rev_app. simpl. apply string_app_nil_r. Qed.

Lemma no_space_rev_app (s t : string) :
  no_space s = true → no_space t = true → no_space (String.rev_app s t) = true.
Proof.
  revert t. induction s as [|a s IH]; intros t Hs Ht; [done |].
  simpl in *. apply andb_prop in Hs as [Ha Hs]. apply IH; [done |].
  simpl. by rewrite Ha, Ht.
Qed.

Lemma lstrip_no_space (s : string) : no_space s = true → lstrip s = s.
Proof.
  destruct s as [|a s]; [done |]. simpl. intros H.
  apply andb_prop in H as [Ha _]. by destruct (Ascii.is_space a).
Qed.

Lemma strip_no_space (s : string) : no_space s = true → strip s = s.
Proof.
  intros Hs. unfold strip. rewrite (lstrip_no_space s Hs).
  rewrite lstrip_no_space; [apply string_rev_involutive |].
  by apply no_space_rev_app.
Qed.

(** *** The digits [str] writes *)

Lemma pretty_N_char_digit (x : N) :
  (x < 10)%N →
  digit_value (pretty_N_char x) = Some (Z.of_N x)
  ∧ Ascii.is_space (pretty_N_char x) = false.
Proof.
  intros Hx.
  assert (Hcases : x ∈ [0; 1; 2; 3; 4; 5; 6; 7; 8; 9]%N).
  { rewrite !elem_of_cons. lia. }
  rewrite !elem_of_cons, elem_of_nil in Hcases.
  repeat (destruct Hcases as [-> | Hcases]; [by split |]). done.
Qed.

(** Reading back what [pretty_N_go] has written in front of [s]. *)
Lemma pretty_N_go_digits (x : N) :
  ∃ k, 0 ≤ k ∧ ∀ s acc,
    digits_value acc (pretty_N_go x s) = digits_value (acc * 10 ^ k + Z.of_N x) s
    ∧ (no_space s = true → no_space (pretty_N_go x s) = true)
    ∧ (s ≠ "" → pretty_N_go x s ≠ "").
Proof.
  induction (N.lt_wf_0 x) as [x _ IH].
  destruct (decide (x = 0%N)) as [-> | Hx].
  - exists 0. split; [done |]. intros s acc. rewrite pretty_N_go_0.
    split_and!; [f_equal; lia | done | done].
  - destruct (IH (x `div` 10)%N) as (k & Hk & Hgo).
    { apply N.div_lt; lia. }
    exists (k + 1). split; [lia |]. intros s acc.
    rewrite pretty_N_go_step by lia.
    destruct (pretty_N_char_digit (x `mod` 10)%N) as [Hdigit Hspace].
    { apply N.mod_lt. lia. }
    destruct (Hgo (String (pretty_N_char (x `mod` 10)%N) s) acc) as (Hval & Hns & Hne).
    split_and!.
    + rewrite Hval. simpl. rewrite Hdigit. f_equal.
      rewrite Z.pow_add_r by lia.
      pose proof (N.div_mod x 10 ltac:(lia)) as Hdm.
      apply (f_equal Z.of_N) in Hdm. rewrite N2Z.inj_add, N2Z.inj_mul in Hdm.
      change (Z.of_N 10) with 10 in Hdm. lia.
    + intros Hs. apply Hns. simpl. by rewrite Hspace, Hs.
    + intros _. by apply Hne.
Qed.

Lemma unsigned_literal_pretty (p : positive) :
  unsigned_literal (pretty (N.pos p)) = Some (Z.pos p)
  ∧ no_space (pretty (N.pos p)) = true.
Proof.
  unfold pretty, pretty_N. rewrite decide_False by done.
  destruct (pretty_N_go_digits (N.pos p)) as (k & Hk & Hgo).
  destruct (pretty_N_go (N.pos p) "") as [|c s] eqn:Hstr.
  - exfalso. rewrite pretty_N_go_step in Hstr by lia.
    destruct (pretty_N_go_digits (N.pos p `div` 10)%N) as (k' & _ & Hgo').
    destruct (Hgo' (String (pretty_N_char (N.pos p `mod` 10)%N) "") 0) as (_ & _ & Hne).
    by apply Hne.
  - unfold unsigned_literal. rewrite <- Hstr.
    destruct (Hgo "" 0) as (Hval & Hns & _). split; [| by apply Hns].
    rewrite Hval. simpl. f_equal.
Qed.

(** [int(str(z))] is [z]. *)
Lemma int_of_literal_str (z : Z) : int_of_literal (str z) = Some z.
Proof.
  unfold str, int_of_literal. destruct z as [|p|p].
  - reflexivity.
  - change (pretty (Z.pos p)) with (pretty (N.pos p)).
    destruct (unsigned_literal_pretty p) as [Hval Hns].
    rewrite (strip_no_space _ Hns).
    destruct (pretty (N.pos p)) as [|c s] eqn:Hstr; [done |].
    assert (Hc : c ≠ "-"%char ∧ c ≠ "+"%char).
    { unfold unsigned_literal in Hval. simpl in Hval.
      destruct (digit_value c) as [dv|] eqn:Hdv; [| done].
      split; intros ->; discriminate Hdv. }
    destruct Hc as [Hminus Hplus].
    destruct (Ascii.ascii_dec c "-") as [?|_]; [done |].
    destruct (Ascii.ascii_dec c "+") as [?|_]; [done |].
    destruct c as [[] [] [] [] [] [] [] []]; try done.
  - change (pretty (Z.neg p)) with ("-" +:+ pretty (N.pos p)).
    destruct (unsigned_literal_pretty p) as [Hval Hns].
    rewrite strip_no_space by (rewrite string_app_cons; simpl; exact Hns).
    rewrite string_app_cons. change ("" +:+ pretty (N.pos p)) with (pretty (N.pos p)).
    rewrite Hval. reflexivity.
Qed.

(** X24: the index may give [total_threads] as an integer of at most 4300
    digits or as the decimal string of that integer, negative ones
    included: the thread count is the same. *)
Theorem string_count_is_integer_count (dict : list (string * value)) (v : value) (n : Z) :
  Z.abs n < 10 ^ 4300 →
  assoc "total_threads" dict = Some v →
  v = PInt n ∨ v = PStr (str n) →
  threads_num_of (PDict dict) = Ok n.
Proof.
  intros _ Hassoc Hv. unfold threads_num_of. simpl. rewrite Hassoc.
  rewrite bool_decide_eq_true_2 by by eexists.
  destruct Hv as [-> | ->]; simpl; [done |].
  by rewrite int_of_literal_str.
Qed.

Lemma string_count_is_integer_count_witness :
  threads_num_of (PDict [("page_size", PInt 10); ("total_threads", PStr "412")]) = Ok 412.
Proof.
  apply (string_count_is_integer_count
           [("page_size", PInt 10); ("total_threads", PStr "412")] (PStr "412") 412).
  - apply Z.ltb_lt. vm_compute. reflexivity.
  - reflexivity.
  - right. reflexivity.
Defined.
